(** * carbon-dash: filter reconciliation and view recomputation

    A shallow embedding of the callbacks of [final_carbon.py]:

    - [update_country_from_map], [update_country_from_bar] and
      [update_sector_from_treemap], the click callbacks that toggle one value
      of a dropdown selection;
    - [update_dashboard], the main callback that filters the data frame and
      derives the summary metrics, the per-country aggregate, the top-10
      ranking, the trend series and the table rows.

    Click payloads reach the callbacks as decoded JSON and are modelled
    untyped ([Py.json]); exceptions are explicit ([Py.res]).  The data frame
    is a list of typed records; [Emissions] is a rational number, so sums and
    quotients are exact, and [round(3)] is rounding half to even on the
    third decimal.  The filtered total is computed a second time on IEEE
    doubles ([Doubles]), as pandas and numpy form it. *)

From Stdlib Require Import List String Ascii Bool Arith ZArith QArith Qround Lia.
From Stdlib Require Import Permutation Sorted.
From Stdlib Require Import PrimFloat FloatOps SpecFloat.
Import ListNotations.

Local Open Scope string_scope.
Set Warnings "-register-all,-inexact-float".

(* ================================================================== *)
(** * Python values and the operations the callbacks use *)

Module Py.

(** A decoded JSON document.  A [JObj] is a dict in insertion order; a key is
    looked up at its first binding. *)
Inductive json : Type :=
| JNull
| JBool (b : bool)
| JNum (q : Q)
| JStr (s : string)
| JArr (l : list json)
| JObj (kvs : list (string * json)).

(** The exceptions the callbacks can meet. *)
Inductive exn : Type :=
| AttributeError
| KeyError
| IndexError
| TypeError
| ValueError.

(** A computation that returns or raises. *)
Inductive res (A : Type) : Type :=
| Ok (a : A)
| Raise (e : exn).
Arguments Ok {A} a.
Arguments Raise {A} e.

Definition bind {A B} (m : res A) (k : A -> res B) : res B :=
  match m with
  | Ok a => k a
  | Raise e => Raise e
  end.

(** [try: body / except Exception as e: handler e]. *)
Definition try_except {A} (body : res A) (handler : exn -> res A) : res A :=
  match body with
  | Ok a => Ok a
  | Raise e => handler e
  end.

Declare Scope py_scope.
Delimit Scope py_scope with py.
Notation "x <- m ;; k" := (bind m (fun x => k))
  (at level 61, m at next level, right associativity) : py_scope.

(** Truth value of an object: [None], [False], zero, the empty string, the
    empty list and the empty dict are false. *)
Definition truthy (j : json) : bool :=
  match j with
  | JNull => false
  | JBool b => b
  | JNum q => negb (Qeq_bool q 0)
  | JStr s => negb (s =? "")
  | JArr l => match l with [] => false | _ :: _ => true end
  | JObj kvs => match kvs with [] => false | _ :: _ => true end
  end.

Fixpoint lookup (k : string) (kvs : list (string * json)) : option json :=
  match kvs with
  | [] => None
  | (k', v) :: rest => if k =? k' then Some v else lookup k rest
  end.

Definition bool_num (b : bool) : Q := if b then 1%Q else 0%Q.

(** [x == y].  Booleans compare as the numbers 0 and 1; lists compare
    element by element; dicts compare as maps. *)
Fixpoint py_eq (x y : json) {struct x} : bool :=
  match x, y with
  | JNull, JNull => true
  | JBool a, JBool b => Bool.eqb a b
  | JBool a, JNum q => Qeq_bool (bool_num a) q
  | JNum q, JBool b => Qeq_bool q (bool_num b)
  | JNum p, JNum q => Qeq_bool p q
  | JStr s, JStr t => (s =? t)
  | JArr xs, JArr ys =>
      (fix go (xs ys : list json) {struct xs} : bool :=
         match xs, ys with
         | [], [] => true
         | a :: xs', b :: ys' => py_eq a b && go xs' ys'
         | _, _ => false
         end) xs ys
  | JObj kx, JObj ky =>
      Nat.eqb (List.length kx) (List.length ky) &&
      (fix go (kx : list (string * json)) {struct kx} : bool :=
         match kx with
         | [] => true
         | (k, v) :: rest =>
             match lookup k ky with
             | Some w => py_eq v w
             | None => false
             end && go rest
         end) kx
  | _, _ => false
  end.

(** [d.get(key)]: only a dict has the method; a missing key gives [None]. *)
Definition get (d : json) (key : string) : res json :=
  match d with
  | JObj kvs => Ok (match lookup key kvs with Some v => v | None => JNull end)
  | _ => Raise AttributeError
  end.

(** [x[key]] for a string key. *)
Definition getitem (x : json) (key : string) : res json :=
  match x with
  | JObj kvs => match lookup key kvs with Some v => Ok v | None => Raise KeyError end
  | _ => Raise TypeError
  end.

(** [x[0]]. *)
Definition getitem0 (x : json) : res json :=
  match x with
  | JArr [] => Raise IndexError
  | JArr (a :: _) => Ok a
  | JStr EmptyString => Raise IndexError
  | JStr (String c _) => Ok (JStr (String c EmptyString))
  | JObj _ => Raise KeyError
  | _ => Raise TypeError
  end.

(** [p in s] on two strings: [p] occurs in [s]. *)
Fixpoint occurs (p s : string) : bool :=
  String.prefix p s ||
  match s with
  | EmptyString => false
  | String _ s' => occurs p s'
  end.

(** [key in x] for a string key: a key of a dict, an element of a list, a
    substring of a string. *)
Definition contains (x : json) (key : string) : res bool :=
  match x with
  | JObj kvs => Ok (match lookup key kvs with Some _ => true | None => false end)
  | JArr l => Ok (existsb (fun e => py_eq e (JStr key)) l)
  | JStr s => Ok (occurs key s)
  | _ => Raise TypeError
  end.

(** [v in l] on a list. *)
Definition py_in (v : json) (l : list json) : bool :=
  existsb (fun e => py_eq e v) l.

(** [l.remove(v)]: drops the first element equal to [v]; [ValueError] when
    there is none. *)
Fixpoint remove (v : json) (l : list json) : res (list json) :=
  match l with
  | [] => Raise ValueError
  | e :: rest =>
      if py_eq e v then Ok rest
      else bind (remove v rest) (fun r => Ok (e :: r))
  end.

(** [s.split(sep)] for a one-character separator. *)
Fixpoint split (sep : ascii) (s : string) : list string :=
  match s with
  | EmptyString => [EmptyString]
  | String c s' =>
      if Ascii.eqb c sep then EmptyString :: split sep s'
      else match split sep s' with
           | [] => [String c EmptyString]
           | w :: ws => String c w :: ws
           end
  end.

End Py.

(* ================================================================== *)
(** * Filter reconciler: the three click callbacks *)

Module Reconciler.
Import Py.
Local Open Scope py_scope.

(** What a callback hands back to the framework: the [no_update] sentinel or
    the new value of the dropdown. *)
Inductive output : Type :=
| no_update
| Value (l : list json).

(** [not click_data or not click_data.get('points')], the guard that opens
    every click callback; [or] does not evaluate its right operand when the
    left one holds. *)
Definition no_points (click_data : json) : res bool :=
  if negb (truthy click_data) then Ok true
  else pts <- get click_data "points";; Ok (negb (truthy pts)).

(** The tail shared by the three callbacks: copy the current selection
    ([None] becomes the empty list), then remove the clicked value when it
    is in the copy and append it otherwise. *)
Definition toggle (clicked : json) (current : option (list json)) : res (list json) :=
  let current := match current with None => [] | Some l => l end in
  if py_in clicked current then remove clicked current
  else Ok (current ++ [clicked])%list.

(** [click_data['points'][0][field]]. *)
Definition clicked_field (field : string) (click_data : json) : res json :=
  pts <- getitem click_data "points";;
  p0 <- getitem0 pts;;
  getitem p0 field.

Definition update_country_from_map (click_data : json) (current_countries : option (list json))
  : res output :=
  g <- no_points click_data;;
  if g then Ok no_update
  else
    try_except
      (clicked_country <- clicked_field "location" click_data;;
       if negb (truthy clicked_country) then Ok no_update
       else l <- toggle clicked_country current_countries;; Ok (Value l))
      (fun _ => Ok no_update).

Definition update_country_from_bar (click_data : json) (current_countries : option (list json))
  : res output :=
  g <- no_points click_data;;
  if g then Ok no_update
  else
    try_except
      (clicked_country <- clicked_field "x" click_data;;
       if negb (truthy clicked_country) then Ok no_update
       else l <- toggle clicked_country current_countries;; Ok (Value l))
      (fun _ => Ok no_update).

Section Treemap.

(** [str(x)] of a value that is not a string (the text Python prints for a
    number, a list, ...) is a parameter of the model; [str] of a string is
    the string. *)
Variable repr : json -> string.

Definition py_str (x : json) : string :=
  match x with
  | JStr s => s
  | _ => repr x
  end.

(** [key in clicked_point and clicked_point[key]]. *)
Definition has_field (clicked_point : json) (key : string) : res bool :=
  b <- contains clicked_point key;;
  if b then v <- getitem clicked_point key;; Ok (truthy v) else Ok false.

(** The sector a treemap point names: the first segment of its [id], else
    its [label], else its [text], else [None]. *)
Definition clicked_sector (clicked_point : json) : res json :=
  b <- has_field clicked_point "id";;
  if b then
    v <- getitem clicked_point "id";;
    match split "/" (py_str v) with
    | [] => Ok JNull
    | first :: _ => Ok (JStr first)
    end
  else
    b <- has_field clicked_point "label";;
    if b then getitem clicked_point "label"
    else
      b <- has_field clicked_point "text";;
      if b then getitem clicked_point "text" else Ok JNull.

Definition update_sector_from_treemap (click_data : json) (current_sectors : option (list json))
  : res output :=
  g <- no_points click_data;;
  if g then Ok no_update
  else
    try_except
      (pts <- getitem click_data "points";;
       clicked_point <- getitem0 pts;;
       sector <- clicked_sector clicked_point;;
       if negb (truthy sector) then Ok no_update
       else l <- toggle sector current_sectors;; Ok (Value l))
      (fun _ => Ok no_update).

(** The three chart sources and the callback of each. *)
Inductive source : Type := Map | Bar | Treemap.

Definition callback (src : source) : json -> option (list json) -> res output :=
  match src with
  | Map => update_country_from_map
  | Bar => update_country_from_bar
  | Treemap => update_sector_from_treemap
  end.

(** The value a click names, as the [try] block of the callback reads it. *)
Definition clicked_value (src : source) (click_data : json) : res json :=
  match src with
  | Map => clicked_field "location" click_data
  | Bar => clicked_field "x" click_data
  | Treemap =>
      pts <- getitem click_data "points";;
      clicked_point <- getitem0 pts;;
      clicked_sector clicked_point
  end.

(** A click resolves to [v]: it passes the guard and names a true value. *)
Definition resolves (src : source) (click_data : json) (v : json) : Prop :=
  no_points click_data = Ok false /\
  clicked_value src click_data = Ok v /\
  truthy v = true.

(** A click that does not resolve: the guard stops it or raises, or reading
    the value raises, or the value read is false. *)
Definition unresolvable (src : source) (click_data : json) : Prop :=
  forall v, ~ resolves src click_data v.

End Treemap.

End Reconciler.

(* ================================================================== *)
(** * View recomputer: the main callback *)

Module Recomputer.

Local Open Scope Q_scope.

(** ** The data frame *)

(** One row of [df] after loading: the five columns the callback reads. *)
Record record : Type := mkRecord {
  Country : string;
  Year : Z;
  Sector : string;
  Subsector : string;
  Emissions : Q
}.

Definition dataset : Type := list record.

(** The values of the four dropdowns.  A [multi] dropdown holds [None] until
    something is chosen and a list afterwards. *)
Record filter_state : Type := mkState {
  selected_countries : option (list string);
  selected_years : option (list Z);
  selected_sectors : option (list string);
  selected_subsectors : option (list string)
}.

(** The dropdowns of a fresh session: the layout gives them no value. *)
Definition initial_state : filter_state := mkState None None None None.

(** [if selected:] holds for a list with at least one element. *)
Definition chosen {A} (selected : option (list A)) : bool :=
  match selected with
  | Some (_ :: _) => true
  | _ => false
  end.

Definition values {A} (selected : option (list A)) : list A :=
  match selected with
  | Some l => l
  | None => []
  end.

(** [column.isin(selected)] at one row. *)
Definition isin {A} (eqb : A -> A -> bool) (x : A) (selected : list A) : bool :=
  existsb (eqb x) selected.

(** [if selected: dff = dff[dff[column].isin(selected)]]. *)
Definition apply_filter {A} (eqb : A -> A -> bool) (column : record -> A)
    (selected : option (list A)) (dff : dataset) : dataset :=
  if chosen selected then filter (fun r => isin eqb (column r) (values selected)) dff
  else dff.

(** The four filters, in the order the callback applies them. *)
Definition filtered (df : dataset) (st : filter_state) : dataset :=
  let dff := df in
  let dff := apply_filter String.eqb Country (selected_countries st) dff in
  let dff := apply_filter Z.eqb Year (selected_years st) dff in
  let dff := apply_filter String.eqb Sector (selected_sectors st) dff in
  let dff := apply_filter String.eqb Subsector (selected_subsectors st) dff in
  dff.

(** ** Numbers *)

(** [column.sum()]; the empty sum is 0. *)
Definition sum (l : list Q) : Q := fold_right Qplus 0 l.

(** The integer nearest to [x], a tie going to the even neighbour. *)
Definition rint (x : Q) : Z :=
  let n := Qnum x in
  let d := Zpos (Qden x) in
  let f := (n / d)%Z in
  match (2 * (n mod d) ?= d)%Z with
  | Lt => f
  | Gt => (f + 1)%Z
  | Eq => if Z.even f then f else (f + 1)%Z
  end.

(** [x.round(3)]. *)
Definition round3 (x : Q) : Q := inject_Z (rint (x * 1000)) / 1000.

(** [x / n]; there is no quotient by zero. *)
Definition divide (x : Q) (n : nat) : option Q :=
  match n with
  | O => None
  | S _ => Some (x / inject_Z (Z.of_nat n))
  end.

(** ** Sorting and grouping *)

Section Sort.
Context {A : Type} (le : A -> A -> bool).

(** Insertion before the first element that is not strictly ahead. *)
Fixpoint insert (x : A) (l : list A) : list A :=
  match l with
  | [] => [x]
  | y :: t => if le x y then x :: y :: t else y :: insert x t
  end.

(** A stable sort: rows that compare equal keep their input order. *)
Fixpoint sort (l : list A) : list A :=
  match l with
  | [] => []
  | x :: t => insert x (sort t)
  end.

End Sort.

Section Groupby.
Context {K : Type} (K_dec : forall a b : K, {a = b} + {a <> b}) (le : K -> K -> bool).

(** The group keys of [groupby(key)]: the distinct keys of the rows, sorted. *)
Definition group_keys (key : record -> K) (dff : dataset) : list K :=
  sort le (nodup K_dec (map key dff)).

(** [dff.groupby(key)[["Emissions"]].sum().reset_index()]: one row per
    group, keys ascending. *)
Definition groupby_sum (key : record -> K) (dff : dataset) : list (K * Q) :=
  map (fun k =>
         (k, sum (map Emissions (filter (fun r => if K_dec (key r) k then true else false) dff))))
      (group_keys key dff).

End Groupby.

Definition year_country_dec (a b : Z * string) : {a = b} + {a <> b}.
Proof. decide equality; [apply string_dec | apply Z.eq_dec]. Defined.

(** Order of the pairs [(Year, Country)]: by year, then by country. *)
Definition year_country_leb (a b : Z * string) : bool :=
  (fst a <? fst b)%Z || ((fst a =? fst b)%Z && String.leb (snd a) (snd b)).

(** [frame.nlargest(n, "Emissions")]: the first [n] rows in descending
    order of [Emissions], equal totals in the order of [frame]. *)
Definition nlargest {K} (n : nat) (frame : list (K * Q)) : list (K * Q) :=
  firstn n (sort (fun a b => Qle_bool (snd b) (snd a)) frame).

(** [frame.sort_values("Emissions", ascending=False)].  Rows of equal
    emissions keep the order of [frame] here; pandas leaves their order to
    the sorting algorithm. *)
Definition sort_values_desc (frame : dataset) : dataset :=
  sort (fun a b => Qle_bool (Emissions b) (Emissions a)) frame.

(** ** The callback *)

(** The three shapes of the line chart's data. *)
Inductive trend_series : Type :=
| CountryTrend (country_name : string) (trend_df : list (Z * Q))
| SelectedTrend (trend_df : list ((Z * string) * Q))
| GlobalTrend (trend_df : list (Z * Q)).

(** Number of rows of the trend frame. *)
Definition trend_rows (t : trend_series) : nat :=
  match t with
  | CountryTrend _ d => List.length d
  | SelectedTrend d => List.length d
  | GlobalTrend d => List.length d
  end.

Inductive colour : Type := red | lightblue.

(** What the callback derives from the filtered frame.  The figures are kept
    as the data they are drawn from; the two metric strings are kept as the
    numbers they print. *)
Record view : Type := mkView {
  total_emissions : Q;
  num_countries : nat;
  avg_emissions : Q;
  map_df : list (string * Q);
  treemap_df : list (string * string * Q);
  top_countries : list (string * Q);
  bar_colors : option (list colour);
  trend : trend_series;
  table_records : list record
}.

(** The line chart's data, chosen by the length of the country selection. *)
Definition line_chart (selected : option (list string)) (dff : dataset) : trend_series :=
  match selected with
  | Some [country_name] =>
      CountryTrend country_name
        (groupby_sum Z.eq_dec Z.leb Year
           (filter (fun r => Country r =? country_name)%string dff))
  | Some ((_ :: _ :: _) as l) =>
      SelectedTrend
        (groupby_sum year_country_dec year_country_leb (fun r => (Year r, Country r))
           (filter (fun r => isin String.eqb (Country r) l) dff))
  | _ => GlobalTrend (groupby_sum Z.eq_dec Z.leb Year dff)
  end.

(** Everything the callback computes once the selections are settled. *)
Definition recompute (df : dataset) (st : filter_state) : option view :=
  let dff := filtered df st in
  let total_emissions := round3 (sum (map Emissions dff)) in
  let num_countries := List.length (nodup string_dec (map Country dff)) in
  match
    (if (0 <? num_countries)%nat
     then option_map round3 (divide total_emissions num_countries)
     else Some 0)
  with
  | None => None
  | Some avg_emissions =>
      let map_df := groupby_sum string_dec String.leb Country dff in
      let treemap_df :=
        match dff with
        | [] => [("No Data", "No Data", 0)]
        | _ => map (fun r => (Sector r, Subsector r, Emissions r)) dff
        end in
      let top_countries := nlargest 10 map_df in
      let bar_colors :=
        match top_countries with
        | [] => None
        | _ =>
            if chosen (selected_countries st)
            then Some (map (fun row => if isin String.eqb (fst row) (values (selected_countries st))
                                       then red else lightblue) top_countries)
            else None
        end in
      let table_records :=
        match dff with
        | [] => []
        | _ => map (fun r => mkRecord (Country r) (Year r) (Sector r) (Subsector r)
                               (round3 (Emissions r)))
                   (sort_values_desc dff)
        end in
      Some (mkView total_emissions num_countries avg_emissions map_df treemap_df
              top_countries bar_colors (line_chart (selected_countries st) dff)
              table_records)
  end.

(** [ctx.triggered[0]['prop_id'].split('.')[0] if ctx.triggered else None];
    [triggered] lists the [prop_id] of every input that fired. *)
Definition triggered_id (triggered : list string) : option string :=
  match triggered with
  | [] => None
  | prop_id :: _ =>
      match Py.split "." prop_id with
      | [] => None
      | first :: _ => Some first
      end
  end.

Definition is_reset (triggered : list string) : bool :=
  match triggered_id triggered with
  | Some id => (id =? "reset-button")%string
  | None => false
  end.

(** The main callback: the derived view and the four dropdown values it
    writes back. *)
Definition update_dashboard (df : dataset) (triggered : list string) (st : filter_state)
  : option (view * filter_state) :=
  let st := if is_reset triggered
            then mkState (Some []) (Some []) (Some []) (Some [])
            else st in
  option_map (fun v => (v, st)) (recompute df st).

End Recomputer.

(* ================================================================== *)
(** * The specification's vocabulary *)

Module Spec.
Import Recomputer.

(** The specification's reading of the filter: a row is kept when, for each
    dimension with a non-empty selection, its value is in the selection. *)
Definition spec_keeps (st : filter_state) (r : record) : bool :=
  (negb (chosen (selected_countries st))
   || isin String.eqb (Country r) (values (selected_countries st)))
  && (negb (chosen (selected_years st))
      || isin Z.eqb (Year r) (values (selected_years st)))
  && (negb (chosen (selected_sectors st))
      || isin String.eqb (Sector r) (values (selected_sectors st)))
  && (negb (chosen (selected_subsectors st))
      || isin String.eqb (Subsector r) (values (selected_subsectors st))).

(** [t] lists the yearly totals of [rows]: one row per year that occurs, in
    ascending order, carrying the sum of the emissions of that year. *)
Definition yearly_totals (rows : dataset) (t : list (Z * Q)) : Prop :=
  NoDup (map fst t) /\
  Sorted Z.le (map fst t) /\
  forall y q,
    In (y, q) t <->
    In y (map Year rows) /\
    q = sum (map Emissions (filter (fun r => (Year r =? y)%Z) rows)).

(** [t] lists the totals of [rows] per year and country: one row per pair
    that occurs, by year and then by country. *)
Definition year_country_totals (rows : dataset) (t : list (Z * string * Q)) : Prop :=
  NoDup (map fst t) /\
  Sorted (fun a b => year_country_leb a b = true) (map fst t) /\
  forall y c q,
    In (y, c, q) t <->
    In (y, c) (map (fun r => (Year r, Country r)) rows) /\
    q = sum (map Emissions
               (filter (fun r => (Year r =? y)%Z && (Country r =? c)%string) rows)).

(** [l] without its first occurrence of [v]. *)
Fixpoint remove_first (v : string) (l : list string) : list string :=
  match l with
  | [] => []
  | x :: t => if (x =? v)%string then t else x :: remove_first v t
  end.

(** The specification's toggle on a selection read as a set: a member is
    removed, a non-member is added. *)
Definition spec_toggle (v : string) (l : list string) : list string :=
  if in_dec string_dec v l then remove_first v l else (l ++ [v])%list.

(** ** Sample inputs *)

(** The three-row data frame of the specification's example. *)
Definition sample_df : dataset :=
  [ mkRecord "USA" 2020 "Energy" "Power" 10;
    mkRecord "USA" 2020 "Energy" "Power" 5;
    mkRecord "China" 2020 "Energy" "Power" 20 ].

(** A click on the mark of [value], as the graph component reports it. *)
Definition sample_click (field value : string) : Py.json :=
  Py.JObj [("points", Py.JArr [Py.JObj [(field, Py.JStr value)]])].

End Spec.

(* ================================================================== *)
(** * Dataset loader: the statements that run before the layout *)

Module Loader.
Import Py Recomputer.
Local Open Scope py_scope.

(** ** Columns *)

(** [label in df.columns]. *)
Definition has_column (label : string) (columns : list string) : bool :=
  existsb (String.eqb label) columns.

(** [df.drop(labels, axis=1)] on the column index: every column that bears
    one of the labels goes; a label that no column bears is a [KeyError]. *)
Definition drop (labels columns : list string) : res (list string) :=
  if forallb (fun label => has_column label columns) labels
  then Ok (filter (fun c => negb (has_column c labels)) columns)
  else Raise KeyError.

(** [df.rename(columns=mapper)]: a column named in the mapper takes its new
    name, the others keep theirs. *)
Definition rename (mapper : list (string * string)) (columns : list string) : list string :=
  map (fun c =>
         match find (fun kv => (fst kv =? c)%string) mapper with
         | Some kv => snd kv
         | None => c
         end)
      columns.

(** The column index after the clean-up that follows [read_excel]. *)
Definition prepare_columns (columns : list string) : res (list string) :=
  columns <- (if has_column "Emissions" columns
                 && has_column "Emissions in billions" columns
              then drop ["Emissions"] columns
              else Ok columns);;
  columns <- (if has_column "sector" columns
              then drop ["sector"; "subsector"] columns
              else Ok columns);;
  let columns :=
    rename [("Sector (Capital)", "Sector");
            ("Subsector(Capital)", "Subsector");
            ("Emissions in billions", "Emissions")] columns in
  if has_column "co2e_100yr_emissions_quantity" columns
  then drop ["co2e_100yr_emissions_quantity"] columns
  else Ok columns.

(** The columns after the first step: the raw [Emissions] is gone when the
    sheet also has [Emissions in billions]. *)
Definition without_raw_emissions (columns : list string) : list string :=
  if has_column "Emissions" columns && has_column "Emissions in billions" columns
  then filter (fun c => negb (c =? "Emissions")) columns
  else columns.

(** The columns after the second step: [sector] and [subsector] are gone
    when the sheet has a column [sector]. *)
Definition without_legacy_sector (columns : list string) : list string :=
  if has_column "sector" columns
  then filter (fun c => negb (has_column c ["sector"; "subsector"])) columns
  else columns.

(** The name a column bears after the renaming. *)
Definition canonical_name (c : string) : string :=
  if ("Sector (Capital)" =? c)%string then "Sector"
  else if ("Subsector(Capital)" =? c)%string then "Subsector"
  else if ("Emissions in billions" =? c)%string then "Emissions"
  else c.

(** ** Rows *)

(** [df[df["Year"] != 2025]]. *)
Definition exclude_2025 (raw : dataset) : dataset :=
  filter (fun r => negb (Year r =? 2025)%Z) raw.

(** [column.unique()]: the distinct values, each at its first occurrence. *)
Fixpoint unique {A} (eqb : A -> A -> bool) (l : list A) : list A :=
  match l with
  | [] => []
  | x :: t => x :: filter (fun y => negb (eqb y x)) (unique eqb t)
  end.

(** [sorted(df[column].unique())], the values a dropdown offers. *)
Definition countries (df : dataset) : list string :=
  sort String.leb (unique String.eqb (map Country df)).

Definition years (df : dataset) : list Z :=
  sort Z.leb (unique Z.eqb (map Year df)).

Definition sectors (df : dataset) : list string :=
  sort String.leb (unique String.eqb (map Sector df)).

Definition subsectors (df : dataset) : list string :=
  sort String.leb (unique String.eqb (map Subsector df)).

End Loader.

(* ================================================================== *)
(** * Further vocabulary *)

Module Vocabulary.
Import Py.

(** No element of the selection is equal, in Python's sense, to one that
    follows it. *)
Definition distinct (l : list json) : Prop :=
  ForallOrdPairs (fun a b => py_eq a b = false) l.

(** The character does not occur in the string. *)
Definition free_of (c : ascii) (s : string) : Prop :=
  ~ In c (list_ascii_of_string s).

(** The field is missing from the point, or is there with a false value. *)
Definition unset (key : string) (fields : list (string * json)) : Prop :=
  match lookup key fields with
  | None => True
  | Some v => truthy v = false
  end.

(** The selection [b] is at least as permissive as [a]: it is empty, or [a]
    is non-empty and within it. *)
Definition wider {A} (a b : option (list A)) : Prop :=
  Recomputer.values b = [] \/
  (Recomputer.values a <> [] /\ incl (Recomputer.values a) (Recomputer.values b)).

(** Every dimension of [st'] is at least as permissive as in [st]. *)
Definition relaxes (st st' : Recomputer.filter_state) : Prop :=
  wider (Recomputer.selected_countries st) (Recomputer.selected_countries st') /\
  wider (Recomputer.selected_years st) (Recomputer.selected_years st') /\
  wider (Recomputer.selected_sectors st) (Recomputer.selected_sectors st') /\
  wider (Recomputer.selected_subsectors st) (Recomputer.selected_subsectors st').

(** A row as the table shows it: its emissions rounded to three decimals. *)
Definition table_row (r : Recomputer.record) : Recomputer.record :=
  Recomputer.mkRecord (Recomputer.Country r) (Recomputer.Year r) (Recomputer.Sector r)
    (Recomputer.Subsector r) (Recomputer.round3 (Recomputer.Emissions r)).

(** A raw three-row sheet with a row of the excluded year. *)
Definition sample_raw : Recomputer.dataset :=
  [ Recomputer.mkRecord "USA" 2020 "Energy" "Power" 10;
    Recomputer.mkRecord "USA" 2025 "Energy" "Power" 5;
    Recomputer.mkRecord "China" 2021 "Waste" "Landfill" 20 ].

End Vocabulary.

(* ================================================================== *)
(** * The totals in double precision *)

(** [Emissions] is a column of IEEE doubles.  This module computes the
    filtered total of lines 330-343 on doubles: the four filters, the sum as
    numpy's [add.reduce] forms it, and [round(3)] as numpy forms it. *)
Module Doubles.
Import Recomputer.

Record drecord : Type := mkDouble {
  dCountry : string;
  dYear : Z;
  dSector : string;
  dSubsector : string;
  dEmissions : float
}.

(** [if selected: dff = dff[dff[column].isin(selected)]]. *)
Definition keep {A} (eqb : A -> A -> bool) (column : drecord -> A)
    (selected : option (list A)) (dff : list drecord) : list drecord :=
  if chosen selected then filter (fun r => isin eqb (column r) (values selected)) dff
  else dff.

Definition dfiltered (df : list drecord) (st : filter_state) : list drecord :=
  let dff := df in
  let dff := keep String.eqb dCountry (selected_countries st) dff in
  let dff := keep Z.eqb dYear (selected_years st) dff in
  let dff := keep String.eqb dSector (selected_sectors st) dff in
  let dff := keep String.eqb dSubsector (selected_subsectors st) dff in
  dff.

(** [for (...) res += a[i]]. *)
Definition add_each (res : float) (a : list float) : float :=
  fold_left PrimFloat.add a res.

(** [r[j] += a[i + j]] for the eight accumulators. *)
Fixpoint add_lanes (r a : list float) : list float :=
  match r, a with
  | x :: r', y :: a' => PrimFloat.add x y :: add_lanes r' a'
  | _, _ => r
  end.

(** The unrolled loop: whole blocks of eight go into the accumulators, what
    is left over is returned. *)
Fixpoint add_blocks (fuel : nat) (r a : list float) : list float * list float :=
  match fuel with
  | O => (r, a)
  | S fuel' =>
      if (8 <=? List.length a)%nat
      then add_blocks fuel' (add_lanes r (firstn 8 a)) (skipn 8 a)
      else (r, a)
  end.

(** [((r[0] + r[1]) + (r[2] + r[3])) + ((r[4] + r[5]) + (r[6] + r[7]))]. *)
Definition add_tree (r : list float) : float :=
  match r with
  | [r0; r1; r2; r3; r4; r5; r6; r7] =>
      PrimFloat.add
        (PrimFloat.add (PrimFloat.add r0 r1) (PrimFloat.add r2 r3))
        (PrimFloat.add (PrimFloat.add r4 r5) (PrimFloat.add r6 r7))
  | _ => PrimFloat.zero
  end.

(** numpy's [pairwise_sum]: a plain loop under eight elements, eight
    accumulators up to 128 elements, two halves above. *)
Fixpoint pairwise_sum (fuel : nat) (a : list float) : float :=
  let n := List.length a in
  if (n <? 8)%nat then add_each PrimFloat.zero a
  else if (n <=? 128)%nat then
    let '(r, rest) := add_blocks n (firstn 8 a) (skipn 8 a) in
    add_each (add_tree r) rest
  else
    match fuel with
    | O => PrimFloat.zero
    | S fuel' =>
        let n2 := (n / 2 - (n / 2) mod 8)%nat in
        PrimFloat.add (pairwise_sum fuel' (firstn n2 a)) (pairwise_sum fuel' (skipn n2 a))
    end.

(** [column.sum()]: [add.reduce] starts from 0 and adds the pairwise sum. *)
Definition dsum (a : list float) : float :=
  PrimFloat.add PrimFloat.zero (pairwise_sum (List.length a) a).

(** [rint]: the nearest integer, a tie going to the even one. *)
Definition drint (x : float) : float :=
  let big := 4503599627370496%float in
  if PrimFloat.ltb (PrimFloat.abs x) big then
    if PrimFloat.ltb x PrimFloat.zero
    then PrimFloat.opp (PrimFloat.sub (PrimFloat.add (PrimFloat.opp x) big) big)
    else PrimFloat.sub (PrimFloat.add x big) big
  else x.

(** [x.round(3)]: [rint(x * 1000.0) / 1000.0]. *)
Definition dround3 (x : float) : float :=
  PrimFloat.div (drint (PrimFloat.mul x 1000%float)) 1000%float.

(** [dff["Emissions"].sum().round(3)]. *)
Definition dtotal (df : list drecord) (st : filter_state) : float :=
  dround3 (dsum (map dEmissions (dfiltered df st))).

(** The rational number a finite double stands for. *)
Definition exact (x : float) : Q :=
  match Prim2SF x with
  | S754_finite s m e => (if s then -1 else 1) * inject_Z (Zpos m) * Qpower 2 e
  | _ => 0
  end.

(** A row of doubles read exactly, as a row of the exact model. *)
Definition exact_row (r : drecord) : record :=
  mkRecord (dCountry r) (dYear r) (dSector r) (dSubsector r) (exact (dEmissions r)).

(** Nine rows, one of them of another sector and of emissions 0. *)
Definition nine_rows : list drecord :=
  [ mkDouble "USA" 2020 "Energy" "Power" 0.4495;
    mkDouble "USA" 2020 "Energy" "Power" 1.6;
    mkDouble "USA" 2020 "Energy" "Power" 0.7;
    mkDouble "USA" 2020 "Energy" "Power" 0.2;
    mkDouble "USA" 2020 "Energy" "Power" 1.3;
    mkDouble "USA" 2020 "Waste" "Landfill" 0;
    mkDouble "USA" 2020 "Energy" "Power" 0.9;
    mkDouble "USA" 2020 "Energy" "Power" 0.5;
    mkDouble "USA" 2020 "Energy" "Power" 1.6 ]%float.

End Doubles.

(* ================================================================== *)
(** * Facts about the view recomputer *)

Import Recomputer Spec.

(** ** Rounding *)

Section Rounding.
Local Open Scope Z_scope.

(** [rint x] is within one half of [x], and sits exactly one half away only
    when it is even. *)
Lemma rint_spec (x : Q) :
  let n := Qnum x in
  let d := Zpos (Qden x) in
  let k := rint x in
  2 * n - d <= 2 * k * d <= 2 * n + d /\
  (2 * k * d = 2 * n + d -> Z.even k = true) /\
  (2 * k * d = 2 * n - d -> Z.even k = true).
Proof.
  destruct x as [n p]; cbn [Qnum Qden]. unfold rint; cbn [Qnum Qden].
  assert (Hd : 0 < Zpos p) by lia.
  pose proof (Z.div_mod n (Zpos p) ltac:(lia)) as Hdm.
  pose proof (Z.mod_pos_bound n (Zpos p) Hd) as Hb.
  set (d := Zpos p) in *. set (f := n / d) in *. set (r := n mod d) in *.
  destruct (Z.compare_spec (2 * r) d) as [He | Hl | Hg].
  - destruct (Z.even f) eqn:Hev.
    + repeat split; intros; auto; nia.
    + assert (Hev' : Z.even (f + 1) = true).
      { rewrite Z.even_add, Hev. reflexivity. }
      repeat split; intros; auto; nia.
  - repeat split; intros; try nia; exfalso; nia.
  - repeat split; intros; try nia; exfalso; nia.
Qed.

Lemma rint_mono (x y : Q) : (x <= y)%Q -> rint x <= rint y.
Proof.
  intros Hxy. unfold Qle in Hxy.
  destruct (rint_spec x) as [[_ Hx] [Hxe _]].
  destruct (rint_spec y) as [[Hy _] [_ Hye]].
  set (n1 := Qnum x) in *. set (d1 := Zpos (Qden x)) in *.
  set (n2 := Qnum y) in *. set (d2 := Zpos (Qden y)) in *.
  set (k1 := rint x) in *. set (k2 := rint y) in *.
  assert (Hd1 : 0 < d1) by (subst d1; lia).
  assert (Hd2 : 0 < d2) by (subst d2; lia).
  destruct (Z_le_gt_dec k1 k2) as [|Hgt]; [assumption|exfalso].
  assert (H1 : (2 * k1 - 1) * d1 * d2 <= 2 * n1 * d2) by nia.
  assert (H2 : 2 * n2 * d1 <= (2 * k2 + 1) * d2 * d1) by nia.
  assert (H3 : (2 * k1 - 1) * (d1 * d2) <= (2 * k2 + 1) * (d1 * d2)) by nia.
  assert (Hp : 0 < d1 * d2) by nia.
  assert (Hk : k1 = k2 + 1) by nia.
  assert (E1 : 2 * k1 * d1 = 2 * n1 + d1) by nia.
  assert (E2 : 2 * k2 * d2 = 2 * n2 - d2) by nia.
  specialize (Hxe E1). specialize (Hye E2).
  rewrite Hk, Z.even_add, Hye in Hxe. discriminate.
Qed.

End Rounding.

Lemma round3_mono (x y : Q) : x <= y -> round3 x <= round3 y.
Proof.
  intros H. unfold round3.
  apply Qmult_le_compat_r; [| discriminate].
  rewrite <- Zle_Qle. apply rint_mono.
  apply Qmult_le_compat_r; [assumption | discriminate].
Qed.

Lemma round3_zero : round3 0 == 0.
Proof. reflexivity. Qed.

(** ** Sums *)

Lemma sum_app (l1 l2 : list Q) : sum (l1 ++ l2) == sum l1 + sum l2.
Proof.
  induction l1 as [|a l1 IH]; simpl.
  - ring.
  - rewrite IH. ring.
Qed.

Lemma sum_nonneg (l : list Q) : Forall (fun q => 0 <= q) l -> 0 <= sum l.
Proof.
  induction 1 as [|q l Hq _ IH]; simpl.
  - apply Qle_refl.
  - replace 0 with (0 + 0) by reflexivity. apply Qplus_le_compat; assumption.
Qed.

(** Dropping rows of non-negative emissions cannot raise the sum. *)
Lemma sum_filter_le (p : record -> bool) (rows : dataset) :
  (forall r, In r rows -> 0 <= Emissions r) ->
  sum (map Emissions (filter p rows)) <= sum (map Emissions rows).
Proof.
  induction rows as [|r rows IH]; intros Hpos; simpl.
  - apply Qle_refl.
  - assert (IH' : sum (map Emissions (filter p rows)) <= sum (map Emissions rows)).
    { apply IH. intros r' Hr'. apply Hpos. now right. }
    assert (Hr : 0 <= Emissions r) by (apply Hpos; now left).
    destruct (p r); simpl.
    + apply Qplus_le_compat; [apply Qle_refl | exact IH'].
    + rewrite <- (Qplus_0_l (sum (map Emissions (filter p rows)))).
      apply Qplus_le_compat; assumption.
Qed.

(** ** The stable insertion sort *)

Section SortFacts.
Context {A : Type} (le : A -> A -> bool).

Lemma insert_perm (x : A) (l : list A) : Permutation (insert le x l) (x :: l).
Proof.
  induction l as [|y t IH]; simpl.
  - apply Permutation_refl.
  - destruct (le x y).
    + apply Permutation_refl.
    + eapply perm_trans; [apply perm_skip, IH | apply perm_swap].
Qed.

Lemma sort_perm (l : list A) : Permutation (sort le l) l.
Proof.
  induction l as [|x t IH]; simpl.
  - apply perm_nil.
  - eapply perm_trans; [apply insert_perm | apply perm_skip, IH].
Qed.

Lemma sort_length (l : list A) : List.length (sort le l) = List.length l.
Proof. apply Permutation_length, sort_perm. Qed.

Lemma sort_in (l : list A) (x : A) : In x (sort le l) <-> In x l.
Proof.
  split; apply Permutation_in; [| apply Permutation_sym]; apply sort_perm.
Qed.

Lemma sort_nil_inv (l : list A) : sort le l = [] -> l = [].
Proof.
  intros H. apply Permutation_nil. rewrite <- H. apply sort_perm.
Qed.

Hypothesis le_total : forall a b, le a b = true \/ le b a = true.

Lemma insert_sorted (x : A) (l : list A) :
  Sorted (fun a b => le a b = true) l ->
  Sorted (fun a b => le a b = true) (insert le x l).
Proof.
  induction 1 as [|y t Ht IH Hhd]; simpl.
  - repeat constructor.
  - destruct (le x y) eqn:Hxy.
    + constructor; [constructor; assumption | constructor; assumption].
    + constructor; [assumption|].
      destruct t as [|z t']; simpl.
      * constructor. destruct (le_total x y) as [H|H]; [congruence | exact H].
      * destruct (le x z).
        -- constructor. destruct (le_total x y) as [H|H]; [congruence | exact H].
        -- inversion Hhd; subst. constructor. assumption.
Qed.

Lemma sort_sorted (l : list A) : Sorted (fun a b => le a b = true) (sort le l).
Proof.
  induction l as [|x t IH]; simpl.
  - constructor.
  - apply insert_sorted, IH.
Qed.

End SortFacts.

(** Stability: the rows of one class of mutually ordered rows come out in
    the order they went in. *)
Lemma insert_stable {A} (le : A -> A -> bool) (p : A -> bool) (x : A) (l : list A) :
  (forall a b, p a = true -> p b = true -> le a b = true) ->
  filter p (insert le x l) = filter p (x :: l).
Proof.
  intros Hp. induction l as [|y t IH].
  - reflexivity.
  - cbn [insert]. destruct (le x y) eqn:Hxy; [reflexivity|].
    cbn [filter] in *. rewrite IH.
    destruct (p x) eqn:Hx; [|reflexivity].
    destruct (p y) eqn:Hy; [|reflexivity].
    rewrite (Hp x y Hx Hy) in Hxy. discriminate.
Qed.

Lemma sort_stable {A} (le : A -> A -> bool) (p : A -> bool) (l : list A) :
  (forall a b, p a = true -> p b = true -> le a b = true) ->
  filter p (sort le l) = filter p l.
Proof.
  intros Hp. induction l as [|x t IH].
  - reflexivity.
  - cbn [sort]. rewrite (insert_stable le p x (sort le t) Hp).
    cbn [filter]. now rewrite IH.
Qed.

(** ** Grouping *)

Section GroupbyFacts.
Context {K : Type} (K_dec : forall a b : K, {a = b} + {a <> b}) (le : K -> K -> bool).
Variable key : record -> K.

Lemma group_keys_in (rows : dataset) (k : K) :
  In k (group_keys K_dec le key rows) <-> In k (map key rows).
Proof.
  unfold group_keys. rewrite sort_in. apply nodup_In.
Qed.

Lemma group_keys_NoDup (rows : dataset) : NoDup (group_keys K_dec le key rows).
Proof.
  unfold group_keys.
  eapply Permutation_NoDup; [apply Permutation_sym, sort_perm | apply NoDup_nodup].
Qed.

Lemma groupby_sum_keys (rows : dataset) :
  map fst (groupby_sum K_dec le key rows) = group_keys K_dec le key rows.
Proof.
  unfold groupby_sum. rewrite map_map. cbn [fst]. apply map_id.
Qed.

Lemma groupby_sum_length (rows : dataset) :
  List.length (groupby_sum K_dec le key rows) = List.length (nodup K_dec (map key rows)).
Proof.
  unfold groupby_sum, group_keys. now rewrite length_map, sort_length.
Qed.

Lemma groupby_sum_in (rows : dataset) (k : K) (q : Q) :
  In (k, q) (groupby_sum K_dec le key rows) <->
  In k (map key rows) /\
  q = sum (map Emissions (filter (fun r => if K_dec (key r) k then true else false) rows)).
Proof.
  unfold groupby_sum. rewrite in_map_iff. split.
  - intros [k' [E Hin]]. inversion E; subst. split; [|reflexivity].
    now apply group_keys_in.
  - intros [Hin ->]. exists k. split; [reflexivity|]. now apply group_keys_in.
Qed.

Lemma groupby_sum_nil : groupby_sum K_dec le key [] = [].
Proof. reflexivity. Qed.

End GroupbyFacts.

(** ** Filtering *)

Lemma chosen_values {A} (selected : option (list A)) :
  chosen selected = match values selected with [] => false | _ :: _ => true end.
Proof. destruct selected as [[|a l]|]; reflexivity. Qed.

Lemma chosen_true_iff {A} (selected : option (list A)) :
  chosen selected = true <-> values selected <> [].
Proof.
  rewrite chosen_values. destruct (values selected); split; congruence.
Qed.

Lemma isin_In {A} (eqb : A -> A -> bool) (x : A) (l : list A) :
  (forall a b, eqb a b = true <-> a = b) ->
  isin eqb x l = true <-> In x l.
Proof.
  intros Heqb. unfold isin. rewrite existsb_exists. split.
  - intros [y [Hy E]]. apply Heqb in E. now subst.
  - intros H. exists x. split; [assumption | now apply Heqb].
Qed.

Lemma filter_true {A} (l : list A) : filter (fun _ => true) l = l.
Proof. induction l; simpl; congruence. Qed.

Lemma filter_filter {A} (p q : A -> bool) (l : list A) :
  filter q (filter p l) = filter (fun x => p x && q x) l.
Proof.
  induction l as [|x l IH]; simpl; [reflexivity|].
  destruct (p x); simpl; [destruct (q x)|]; now rewrite IH.
Qed.

Lemma apply_filter_filter {A} (eqb : A -> A -> bool) (column : record -> A)
    (selected : option (list A)) (dff : dataset) :
  apply_filter eqb column selected dff =
  filter (fun r => negb (chosen selected) || isin eqb (column r) (values selected)) dff.
Proof.
  unfold apply_filter. destruct (chosen selected); simpl.
  - reflexivity.
  - symmetry. apply filter_true.
Qed.

Lemma filtered_filter (df : dataset) (st : filter_state) :
  filtered df st = filter (spec_keeps st) df.
Proof.
  unfold filtered. rewrite !apply_filter_filter, !filter_filter.
  apply filter_ext. intros r. unfold spec_keeps. now rewrite !andb_assoc.
Qed.

Lemma filtered_initial (df : dataset) : filtered df initial_state = df.
Proof. reflexivity. Qed.

Lemma filtered_in (df : dataset) (st : filter_state) (r : record) :
  In r (filtered df st) -> In r df.
Proof. rewrite filtered_filter, filter_In. tauto. Qed.

(** The filter reads a selection only through its list of values, so [None]
    and the empty list select the same rows. *)
Lemma spec_keeps_values (st st' : filter_state) (r : record) :
  values (selected_countries st') = values (selected_countries st) ->
  values (selected_years st') = values (selected_years st) ->
  values (selected_sectors st') = values (selected_sectors st) ->
  values (selected_subsectors st') = values (selected_subsectors st) ->
  spec_keeps st' r = spec_keeps st r.
Proof.
  intros Hc Hy Hs Hss. unfold spec_keeps.
  rewrite !chosen_values, Hc, Hy, Hs, Hss. reflexivity.
Qed.

(** ** The derived view, field by field *)

Lemma recompute_fields (df : dataset) (st : filter_state) :
  let dff := filtered df st in
  exists v,
    recompute df st = Some v /\
    total_emissions v = round3 (sum (map Emissions dff)) /\
    num_countries v = List.length (nodup string_dec (map Country dff)) /\
    avg_emissions v =
      (if (0 <? num_countries v)%nat
       then round3 (total_emissions v / inject_Z (Z.of_nat (num_countries v)))
       else 0) /\
    map_df v = groupby_sum string_dec String.leb Country dff /\
    top_countries v = nlargest 10 (map_df v) /\
    trend v = line_chart (selected_countries st) dff /\
    table_records v =
      map (fun r => mkRecord (Country r) (Year r) (Sector r) (Subsector r) (round3 (Emissions r)))
          (sort_values_desc dff).
Proof.
  intros dff. unfold recompute. fold dff.
  destruct (List.length (nodup string_dec (map Country dff))) as [|n] eqn:Hn.
  - cbn [Nat.ltb Nat.leb]. eexists. split; [reflexivity|]. cbn.
    repeat split; auto. destruct dff; reflexivity.
  - cbn [Nat.ltb Nat.leb divide option_map]. eexists. split; [reflexivity|]. cbn -[Z.of_nat].
    repeat split; auto. destruct dff; reflexivity.
Qed.

Lemma dimension_keeps {A} (eqb : A -> A -> bool) (x : A) (selected : option (list A)) :
  (forall a b, eqb a b = true <-> a = b) ->
  negb (chosen selected) || isin eqb x (values selected) = true <->
  (values selected <> [] -> In x (values selected)).
Proof.
  intros Heqb. rewrite orb_true_iff, negb_true_iff, (isin_In eqb x _ Heqb).
  destruct (chosen selected) eqn:Hc.
  - apply chosen_true_iff in Hc. split; [intros [H|H] _; [discriminate | exact H] | auto].
  - split; [|auto]. intros _ Hne. apply chosen_true_iff in Hne. congruence.
Qed.

(** C1. The filtered subset is the data frame restricted to the rows that
    satisfy every dimension whose selection is non-empty: a row is in it
    exactly when it is in the data frame and, for each of country, year,
    sector and subsector with a non-empty selection, its value is in that
    selection.  A selection is read only through its list of values, so an
    absent selection and an empty one filter alike. *)
Theorem filtered_conjunctive (df : dataset) (st : filter_state) :
  filtered df st = filter (spec_keeps st) df /\
  (forall r,
     In r (filtered df st) <->
     In r df /\
     (values (selected_countries st) <> [] -> In (Country r) (values (selected_countries st))) /\
     (values (selected_years st) <> [] -> In (Year r) (values (selected_years st))) /\
     (values (selected_sectors st) <> [] -> In (Sector r) (values (selected_sectors st))) /\
     (values (selected_subsectors st) <> [] ->
      In (Subsector r) (values (selected_subsectors st)))) /\
  (forall st',
     values (selected_countries st') = values (selected_countries st) ->
     values (selected_years st') = values (selected_years st) ->
     values (selected_sectors st') = values (selected_sectors st) ->
     values (selected_subsectors st') = values (selected_subsectors st) ->
     filtered df st' = filtered df st).
Proof.
  split; [apply filtered_filter|]. split.
  - intros r. rewrite filtered_filter, filter_In. unfold spec_keeps.
    rewrite !andb_true_iff.
    rewrite !(dimension_keeps String.eqb) by apply String.eqb_eq.
    rewrite (dimension_keeps Z.eqb) by apply Z.eqb_eq.
    tauto.
  - intros st' Hc Hy Hs Hss. rewrite !filtered_filter.
    apply filter_ext. intros r. now apply spec_keeps_values.
Qed.

(** C8, in exact arithmetic.  With non-negative emissions in every row of
    the data frame, the exact sum of the filtered emissions is at most the
    exact sum of all of them, and the two sums rounded exactly to three
    decimals stand in the same order. *)
Theorem filtered_total_le (df : dataset) (st : filter_state) :
  (forall r, In r df -> 0 <= Emissions r) ->
  exists v v0,
    recompute df st = Some v /\
    recompute df initial_state = Some v0 /\
    sum (map Emissions (filtered df st)) <= sum (map Emissions df) /\
    total_emissions v <= total_emissions v0.
Proof.
  intros Hpos.
  destruct (recompute_fields df st) as [v [Hv [Ht _]]].
  destruct (recompute_fields df initial_state) as [v0 [Hv0 [Ht0 _]]].
  rewrite filtered_initial in Ht0.
  assert (Hle : sum (map Emissions (filtered df st)) <= sum (map Emissions df)).
  { rewrite filtered_filter. now apply sum_filter_le. }
  exists v, v0. repeat split; try assumption.
  rewrite Ht, Ht0. now apply round3_mono.
Qed.

(** C8, as stated, fails in double precision.  The nine rows have
    non-negative emissions; the sector filter drops the one row of
    emissions 0, which regroups the additions of the pairwise sum: the
    unfiltered sum comes out just under 7.2495 and shows as 7.249, the
    filtered sum just over it and shows as 7.25. *)
Lemma filtered_total_exceeds_in_doubles :
  ~ (forall (df : list Doubles.drecord) (st : filter_state),
       (forall r, In r df -> PrimFloat.leb PrimFloat.zero (Doubles.dEmissions r) = true) ->
       PrimFloat.leb (Doubles.dtotal df st) (Doubles.dtotal df initial_state) = true).
Proof.
  intros H.
  specialize (H Doubles.nine_rows (mkState None None (Some ["Energy"%string]) None)).
  assert (Hpos : forall r, In r Doubles.nine_rows ->
                   PrimFloat.leb PrimFloat.zero (Doubles.dEmissions r) = true).
  { intros r Hr. cbn in Hr.
    repeat (destruct Hr as [<-|Hr]; [vm_compute; reflexivity|]). destruct Hr. }
  specialize (H Hpos). vm_compute in H. discriminate H.
Qed.

Lemma filter_map {A B} (f : A -> B) (p : B -> bool) (l : list A) :
  filter p (map f l) = map f (filter (fun x => p (f x)) l).
Proof.
  induction l as [|x l IH]; cbn; [reflexivity|].
  destruct (p (f x)); cbn; now rewrite IH.
Qed.

(** The two models filter alike: reading the rows exactly and filtering is
    filtering the doubles and reading the result exactly. *)
Lemma filtered_exact (df : list Doubles.drecord) (st : filter_state) :
  filtered (map Doubles.exact_row df) st = map Doubles.exact_row (Doubles.dfiltered df st).
Proof.
  unfold filtered, Doubles.dfiltered, apply_filter, Doubles.keep.
  destruct (chosen (selected_countries st)), (chosen (selected_years st)),
    (chosen (selected_sectors st)), (chosen (selected_subsectors st));
    rewrite ?filter_map; reflexivity.
Qed.

Lemma line_chart_nil (selected : option (list string)) :
  trend_rows (line_chart selected []) = 0%nat.
Proof. destruct selected as [[|a [|b l]]|]; reflexivity. Qed.

(** C5. When no row passes the filters the callback still returns: the
    total is 0, the number of countries is 0, the average is 0, and the
    per-country aggregate, the top-10 frame, the table records and the
    trend frame have no rows. *)
Theorem empty_subset_degrades (df : dataset) (st : filter_state) :
  filtered df st = [] ->
  exists v,
    recompute df st = Some v /\
    total_emissions v == 0 /\
    num_countries v = 0%nat /\
    avg_emissions v = 0 /\
    map_df v = [] /\
    top_countries v = [] /\
    table_records v = [] /\
    trend_rows (trend v) = 0%nat.
Proof.
  intros Hempty.
  destruct (recompute_fields df st) as [v [Hv [Ht [Hn [Ha [Hm [Htop [Htr Htab]]]]]]]].
  rewrite Hempty in *. cbn in Hn.
  exists v. split; [exact Hv|].
  assert (Hm' : map_df v = []) by (rewrite Hm; reflexivity).
  repeat split.
  - rewrite Ht. reflexivity.
  - exact Hn.
  - rewrite Ha, Hn. reflexivity.
  - exact Hm'.
  - rewrite Htop, Hm'. reflexivity.
  - rewrite Htab. reflexivity.
  - rewrite Htr. apply line_chart_nil.
Qed.

(** C6. The callback always returns.  Its total is the sum of the filtered
    emissions rounded to three decimals; its count is the number of distinct
    countries of the filtered rows; its average is the total divided by the
    count, rounded to three decimals, when the count is positive, and 0 when
    the count is 0, where no quotient is formed. *)
Theorem average_per_country (df : dataset) (st : filter_state) :
  exists v,
    recompute df st = Some v /\
    total_emissions v = round3 (sum (map Emissions (filtered df st))) /\
    (exists cs,
       NoDup cs /\
       (forall c, In c cs <-> exists r, In r (filtered df st) /\ Country r = c) /\
       num_countries v = List.length cs) /\
    ((0 < num_countries v)%nat ->
     divide (total_emissions v) (num_countries v)
       = Some (total_emissions v / inject_Z (Z.of_nat (num_countries v))) /\
     avg_emissions v
       = round3 (total_emissions v / inject_Z (Z.of_nat (num_countries v)))) /\
    (num_countries v = 0%nat -> avg_emissions v = 0).
Proof.
  destruct (recompute_fields df st) as [v [Hv [Ht [Hn [Ha _]]]]].
  exists v. split; [exact Hv|]. split; [exact Ht|]. split; [|split].
  - exists (nodup string_dec (map Country (filtered df st))).
    split; [apply NoDup_nodup|]. split; [|exact Hn].
    intros c. rewrite nodup_In, in_map_iff. split; intros [r [H1 H2]]; exists r; tauto.
  - intros Hpos. rewrite Ha.
    destruct (num_countries v) as [|n]; [lia|]. split; reflexivity.
  - intros H0. rewrite Ha, H0. reflexivity.
Qed.

Lemma is_reset_iff (triggered : list string) :
  is_reset triggered = true <-> triggered_id triggered = Some "reset-button"%string.
Proof.
  unfold is_reset. destruct (triggered_id triggered) as [id|].
  - rewrite String.eqb_eq. split; congruence.
  - split; discriminate.
Qed.

(** C7. When the reset button triggers the callback, the four dropdown
    values it writes back are all the empty list and the view it returns is
    the view of the initial, unconstrained state, whatever the selections
    were. *)
Theorem reset_absorbing (df : dataset) (triggered : list string) (st : filter_state) :
  triggered_id triggered = Some "reset-button"%string ->
  exists v,
    update_dashboard df triggered st
      = Some (v, mkState (Some []) (Some []) (Some []) (Some [])) /\
    recompute df initial_state = Some v.
Proof.
  intros Hreset. apply is_reset_iff in Hreset.
  destruct (recompute_fields df initial_state) as [v [Hv _]].
  exists v. split; [|exact Hv].
  unfold update_dashboard. rewrite Hreset.
  change (recompute df (mkState (Some []) (Some []) (Some []) (Some [])))
    with (recompute df initial_state).
  rewrite Hv. reflexivity.
Qed.

(** C10. When anything but the reset button triggers the callback, the four
    dropdown values it writes back are the ones it received, next to the
    view recomputed from them. *)
Theorem selections_returned_unchanged (df : dataset) (triggered : list string)
    (st : filter_state) :
  triggered_id triggered <> Some "reset-button"%string ->
  exists v,
    update_dashboard df triggered st = Some (v, st) /\
    recompute df st = Some v.
Proof.
  intros Hother.
  assert (Hreset : is_reset triggered = false).
  { destruct (is_reset triggered) eqn:E; [|reflexivity].
    apply is_reset_iff in E. contradiction. }
  destruct (recompute_fields df st) as [v [Hv _]].
  exists v. split; [|exact Hv].
  unfold update_dashboard. rewrite Hreset, Hv. reflexivity.
Qed.

(** ** Trend series *)

Lemma Sorted_impl {A} (R R' : A -> A -> Prop) (l : list A) :
  (forall a b, R a b -> R' a b) -> Sorted R l -> Sorted R' l.
Proof.
  intros HR. induction 1 as [|x l Hl IH Hhd]; constructor; [assumption|].
  destruct Hhd; constructor. now apply HR.
Qed.

Lemma filter_all {A} (p : A -> bool) (l : list A) :
  (forall x, In x l -> p x = true) -> filter p l = l.
Proof.
  induction l as [|x l IH]; intros H; simpl; [reflexivity|].
  rewrite (H x) by now left. f_equal. apply IH. intros y Hy. apply H. now right.
Qed.

Lemma year_country_leb_total (a b : Z * string) :
  year_country_leb a b = true \/ year_country_leb b a = true.
Proof.
  unfold year_country_leb. destruct a as [y1 c1], b as [y2 c2]; cbn [fst snd].
  destruct (Z.lt_trichotomy y1 y2) as [H | [H | H]].
  - left. apply Z.ltb_lt in H. now rewrite H.
  - subst. rewrite Z.ltb_irrefl, Z.eqb_refl. cbn. apply String.leb_total.
  - right. apply Z.ltb_lt in H. now rewrite H.
Qed.

Lemma groupby_year_totals (rows : dataset) :
  yearly_totals rows (groupby_sum Z.eq_dec Z.leb Year rows).
Proof.
  unfold yearly_totals. rewrite groupby_sum_keys. split; [apply group_keys_NoDup|]. split.
  - unfold group_keys.
    apply (Sorted_impl (fun a b => (a <=? b)%Z = true)); [intros a b; apply Z.leb_le|].
    apply sort_sorted. intros a b. rewrite !Z.leb_le. lia.
  - intros y q. rewrite groupby_sum_in.
    assert (E : filter (fun r => if Z.eq_dec (Year r) y then true else false) rows
                = filter (fun r => (Year r =? y)%Z) rows).
    { apply filter_ext. intros r. destruct (Z.eq_dec (Year r) y) as [->|Hne].
      - now rewrite Z.eqb_refl.
      - symmetry. now apply Z.eqb_neq. }
    rewrite E. reflexivity.
Qed.

Lemma groupby_year_country_totals (rows : dataset) :
  year_country_totals rows
    (groupby_sum year_country_dec year_country_leb (fun r => (Year r, Country r)) rows).
Proof.
  unfold year_country_totals. rewrite groupby_sum_keys.
  split; [apply group_keys_NoDup|]. split.
  - unfold group_keys. apply sort_sorted, year_country_leb_total.
  - intros y c q. rewrite groupby_sum_in.
    assert (E : filter (fun r => if year_country_dec (Year r, Country r) (y, c)
                                 then true else false) rows
                = filter (fun r => (Year r =? y)%Z && (Country r =? c)%string) rows).
    { apply filter_ext. intros r.
      destruct (year_country_dec (Year r, Country r) (y, c)) as [Heq|Hne].
      - inversion Heq; subst. now rewrite Z.eqb_refl, String.eqb_refl.
      - destruct (Z.eqb_spec (Year r) y) as [Hy|Hy]; [|reflexivity].
        destruct (String.eqb_spec (Country r) c) as [Hc|Hc]; [|reflexivity].
        exfalso. apply Hne. now rewrite Hy, Hc. }
    rewrite E. reflexivity.
Qed.

(** The rows that passed a non-empty country selection name a selected
    country, so filtering them by country once more changes nothing. *)
Lemma filtered_countries (df : dataset) (st : filter_state) (r : record) :
  values (selected_countries st) <> [] ->
  In r (filtered df st) ->
  isin String.eqb (Country r) (values (selected_countries st)) = true.
Proof.
  intros Hne Hin. rewrite filtered_filter in Hin. apply filter_In in Hin.
  destruct Hin as [_ Hkeep]. unfold spec_keeps in Hkeep.
  rewrite !andb_true_iff in Hkeep. destruct Hkeep as [[[Hc _] _] _].
  apply chosen_true_iff in Hne. rewrite Hne in Hc. exact Hc.
Qed.

(** C4. The trend frame follows the country selection.  With exactly one
    country selected it is the yearly totals of the filtered rows of that
    country (which are all the filtered rows); with two or more selected it
    is the totals of the filtered rows per year and country; with none
    selected it is the yearly totals of all the filtered rows. *)
Theorem trend_policy (df : dataset) (st : filter_state) :
  exists v,
    recompute df st = Some v /\
    (forall c,
       values (selected_countries st) = [c] ->
       exists t,
         trend v = CountryTrend c t /\
         yearly_totals (filter (fun r => (Country r =? c)%string) (filtered df st)) t /\
         filter (fun r => (Country r =? c)%string) (filtered df st) = (filtered df st)) /\
    ((2 <= List.length (values (selected_countries st)))%nat ->
     exists t, trend v = SelectedTrend t /\ year_country_totals (filtered df st) t) /\
    (values (selected_countries st) = [] ->
     exists t, trend v = GlobalTrend t /\ yearly_totals (filtered df st) t).
Proof.
  set (dff := filtered df st).
  destruct (recompute_fields df st) as [v [Hv [_ [_ [_ [_ [_ [Htr _]]]]]]]].
  fold dff in Htr. exists v. split; [exact Hv|]. split; [|split].
  - intros c Hsel. eexists. split; [|split].
    + rewrite Htr. destruct (selected_countries st) as [l|]; [|discriminate].
      cbn in Hsel. subst l. reflexivity.
    + apply groupby_year_totals.
    + apply filter_all. intros r Hr.
      pose proof (filtered_countries df st r) as H. rewrite Hsel in H.
      specialize (H ltac:(discriminate) Hr). cbn in H.
      now rewrite orb_false_r in H.
  - intros Hlen.
    destruct (selected_countries st) as [[|a [|b l]]|] eqn:Hsel; cbn in Hlen; try lia.
    eexists. split; [rewrite Htr; reflexivity|].
    rewrite filter_all; [apply groupby_year_country_totals|].
    intros r Hr. pose proof (filtered_countries df st r) as H. rewrite Hsel in H.
    apply H; [discriminate | exact Hr].
  - intros Hsel. eexists. split; [|apply groupby_year_totals].
    rewrite Htr. destruct (selected_countries st) as [[|a l]|]; try discriminate; reflexivity.
Qed.

(** ** Top-10 ranking *)

Lemma Qle_bool_total (x y : Q) : Qle_bool x y = true \/ Qle_bool y x = true.
Proof.
  rewrite !Qle_bool_iff. destruct (Qlt_le_dec x y) as [H|H].
  - left. now apply Qlt_le_weak.
  - now right.
Qed.

(** A frame sorted by descending total: every row is at least as large as
    every row after it. *)
Lemma sort_desc_sorted {K} (frame : list (K * Q)) :
  StronglySorted (fun a b => snd b <= snd a)
    (sort (fun a b => Qle_bool (snd b) (snd a)) frame).
Proof.
  apply Sorted_StronglySorted.
  - intros a b c Hab Hbc. eapply Qle_trans; eassumption.
  - apply (Sorted_impl (fun a b => Qle_bool (snd b) (snd a) = true)).
    + intros a b. apply Qle_bool_iff.
    + apply sort_sorted. intros a b. apply Qle_bool_total.
Qed.

Lemma sort_desc_stable {K} (frame : list (K * Q)) (q : Q) :
  filter (fun a => Qeq_bool (snd a) q) (sort (fun a b => Qle_bool (snd b) (snd a)) frame)
  = filter (fun a => Qeq_bool (snd a) q) frame.
Proof.
  apply sort_stable. intros a b Ha Hb.
  apply Qeq_bool_iff in Ha, Hb. apply Qle_bool_iff.
  rewrite Ha, Hb. apply Qle_refl.
Qed.

Lemma groupby_country_totals (rows : dataset) (c : string) (q : Q) :
  In (c, q) (groupby_sum string_dec String.leb Country rows) <->
  In c (map Country rows) /\
  q = sum (map Emissions (filter (fun r => (Country r =? c)%string) rows)).
Proof.
  rewrite groupby_sum_in.
  assert (E : filter (fun r => if string_dec (Country r) c then true else false) rows
              = filter (fun r => (Country r =? c)%string) rows).
  { apply filter_ext. intros r. destruct (string_dec (Country r) c) as [->|Hne].
    - now rewrite String.eqb_refl.
    - symmetry. now apply String.eqb_neq. }
  rewrite E. reflexivity.
Qed.

(** C3. The per-country aggregate has one row per country of the filtered
    subset, in ascending order of the names, carrying the sum of that
    country's emissions; the number of countries is the number of its rows
    and the number of distinct countries of the filtered rows.  The top-10
    frame has exactly 10 rows, or as many as there are countries when these
    are fewer; it is the head of a rearrangement of the aggregate in
    descending order of the totals, so no country left out has a larger
    total than a country kept; and rows of equal total stand in the order
    of the aggregate. *)
Theorem top10_largest (df : dataset) (st : filter_state) :
  exists v,
    recompute df st = Some v /\
    NoDup (map fst (map_df v)) /\
    Sorted (fun a b => String.leb a b = true) (map fst (map_df v)) /\
    (forall c q,
       In (c, q) (map_df v) <->
       In c (map Country (filtered df st)) /\
       q = sum (map Emissions (filter (fun r => (Country r =? c)%string) (filtered df st)))) /\
    num_countries v = List.length (nodup string_dec (map Country (filtered df st))) /\
    List.length (map_df v) = num_countries v /\
    List.length (top_countries v) = Nat.min 10 (num_countries v) /\
    List.length (top_countries v)
      = Nat.min 10 (List.length (nodup string_dec (map Country (filtered df st)))) /\
    exists rest,
      top_countries v = firstn 10 (top_countries v ++ rest) /\
      Permutation (top_countries v ++ rest) (map_df v) /\
      StronglySorted (fun a b => snd b <= snd a) (top_countries v ++ rest) /\
      forall q,
        filter (fun a => Qeq_bool (snd a) q) (top_countries v ++ rest)
        = filter (fun a => Qeq_bool (snd a) q) (map_df v).
Proof.
  set (dff := filtered df st).
  destruct (recompute_fields df st) as [v [Hv [_ [Hn [_ [Hm [Htop _]]]]]]].
  fold dff in Hn, Hm. exists v. split; [exact Hv|].
  assert (Hlen : List.length (map_df v) = num_countries v).
  { rewrite Hm, groupby_sum_length, <- Hn. reflexivity. }
  assert (Htoplen : List.length (top_countries v) = Nat.min 10 (num_countries v)).
  { rewrite Htop. unfold nlargest. rewrite length_firstn, sort_length, Hlen. reflexivity. }
  split; [|split; [|split; [|split; [|split; [|split; [|split]]]]]].
  - rewrite Hm, groupby_sum_keys. apply group_keys_NoDup.
  - rewrite Hm, groupby_sum_keys. unfold group_keys. apply sort_sorted, String.leb_total.
  - intros c q. rewrite Hm. apply groupby_country_totals.
  - exact Hn.
  - exact Hlen.
  - exact Htoplen.
  - rewrite Htoplen, Hn. reflexivity.
  - exists (skipn 10 (sort (fun a b => Qle_bool (snd b) (snd a)) (map_df v))).
    rewrite Htop. unfold nlargest. rewrite firstn_skipn.
    split; [reflexivity|].
    split; [apply sort_perm|]. split; [apply sort_desc_sorted|].
    intros q. apply sort_desc_stable.
Qed.

(* ================================================================== *)
(** * Facts about the click callbacks *)

Import Py Reconciler.
Local Open Scope py_scope.
Local Open Scope string_scope.

(** ** Toggling a string in a selection of strings *)

Lemma py_eq_JStr (e : json) (v : string) : py_eq e (JStr v) = true <-> e = JStr v.
Proof.
  destruct e; cbn; try (split; [discriminate | intros H; discriminate H]).
  rewrite String.eqb_eq. split; congruence.
Qed.

Lemma py_in_strings (v : string) (l : list string) :
  py_in (JStr v) (map JStr l) = true <-> In v l.
Proof.
  unfold py_in. rewrite existsb_exists. split.
  - intros [e [He Heq]]. apply py_eq_JStr in Heq. subst e.
    apply in_map_iff in He. destruct He as [x [E Hx]]. now inversion E; subst.
  - intros H. exists (JStr v). split; [now apply in_map | now apply py_eq_JStr].
Qed.

Lemma remove_strings (v : string) (l : list string) :
  In v l -> remove (JStr v) (map JStr l) = Ok (map JStr (remove_first v l)).
Proof.
  induction l as [|x t IH]; intros Hin; [destruct Hin|].
  cbn. destruct (String.eqb_spec x v) as [->|Hne]; [reflexivity|].
  destruct Hin as [->|Hin]; [congruence|]. now rewrite (IH Hin).
Qed.

Lemma toggle_strings (v : string) (current : option (list string)) :
  toggle (JStr v) (option_map (map JStr) current)
  = Ok (map JStr (spec_toggle v (values current))).
Proof.
  unfold toggle, spec_toggle.
  assert (E : match option_map (map JStr) current with Some l => l | None => [] end
              = map JStr (values current)) by (destruct current; reflexivity).
  rewrite E. destruct (in_dec string_dec v (values current)) as [Hin|Hnin].
  - rewrite (proj2 (py_in_strings v _) Hin). now apply remove_strings.
  - destruct (py_in (JStr v) (map JStr (values current))) eqn:Hp.
    + apply py_in_strings in Hp. contradiction.
    + now rewrite map_app.
Qed.

Lemma remove_first_notin (v : string) (l : list string) :
  ~ In v l -> remove_first v (l ++ [v]) = l.
Proof.
  induction l as [|x t IH]; intros Hnin; cbn.
  - now rewrite String.eqb_refl.
  - destruct (String.eqb_spec x v) as [->|Hne]; [exfalso; apply Hnin; now left|].
    f_equal. apply IH. intros H. apply Hnin. now right.
Qed.

Lemma remove_first_perm (v : string) (l : list string) :
  In v l -> Permutation (v :: remove_first v l) l.
Proof.
  induction l as [|x t IH]; intros Hin; [destruct Hin|].
  cbn. destruct (String.eqb_spec x v) as [->|Hne]; [apply Permutation_refl|].
  destruct Hin as [->|Hin]; [congruence|].
  eapply perm_trans; [apply perm_swap | apply perm_skip, IH, Hin].
Qed.

(** Two toggles of the same value give back the selection it started from:
    the same list when the value was not selected, the same members
    otherwise. *)
Lemma spec_toggle_twice (v : string) (l : list string) :
  NoDup l ->
  Permutation (spec_toggle v (spec_toggle v l)) l /\
  (~ In v l -> spec_toggle v (spec_toggle v l) = l).
Proof.
  intros Hnd. destruct (in_dec string_dec v l) as [Hin|Hnin].
  - assert (E1 : spec_toggle v l = remove_first v l).
    { unfold spec_toggle. destruct (in_dec string_dec v l); [reflexivity | contradiction]. }
    rewrite E1. split; [|contradiction].
    pose proof (remove_first_perm v l Hin) as Hp.
    assert (Hnin : ~ In v (remove_first v l)).
    { assert (Hnd' : NoDup (v :: remove_first v l))
        by (eapply Permutation_NoDup; [apply Permutation_sym, Hp | exact Hnd]).
      now inversion Hnd'. }
    unfold spec_toggle. destruct (in_dec string_dec v (remove_first v l)); [contradiction|].
    eapply perm_trans; [|exact Hp]. apply Permutation_sym, Permutation_cons_append.
  - assert (E1 : spec_toggle v l = (l ++ [v])%list).
    { unfold spec_toggle. destruct (in_dec string_dec v l); [contradiction | reflexivity]. }
    assert (E2 : spec_toggle v (l ++ [v]) = l).
    { unfold spec_toggle. destruct (in_dec string_dec v (l ++ [v])) as [_|H].
      - now apply remove_first_notin.
      - exfalso. apply H, in_or_app. right. now left. }
    rewrite E1, E2. split; [apply Permutation_refl | reflexivity].
Qed.

(** ** The shape shared by the three callbacks *)

Section Callbacks.
Variable repr : json -> string.

Lemma callback_eq (src : source) (click_data : json) (current : option (list json)) :
  callback repr src click_data current =
  (g <- no_points click_data;;
   if g then Ok no_update
   else
     try_except
       (v <- clicked_value repr src click_data;;
        if negb (truthy v) then Ok no_update
        else l <- toggle v current;; Ok (Value l))
       (fun _ => Ok no_update)).
Proof.
  destruct src; try reflexivity.
  cbn [callback clicked_value]. unfold update_sector_from_treemap.
  destruct (no_points click_data) as [[|]|e]; cbn [bind]; try reflexivity.
  destruct (getitem click_data "points") as [pts|e]; cbn [bind]; try reflexivity.
  destruct (getitem0 pts) as [cp|e]; reflexivity.
Qed.

Lemma callback_resolves (src : source) (click_data v : json) (current : option (list json)) :
  resolves repr src click_data v ->
  callback repr src click_data current =
  try_except (l <- toggle v current;; Ok (Value l)) (fun _ => Ok no_update).
Proof.
  intros (Hg & Hv & Ht). rewrite callback_eq, Hg. cbn [bind].
  rewrite Hv. cbn [bind]. now rewrite Ht.
Qed.

End Callbacks.

Lemma spec_toggle_flips (v : string) (l : list string) :
  NoDup l -> (In v l <-> ~ In v (spec_toggle v l)).
Proof.
  intros Hnd. unfold spec_toggle. destruct (in_dec string_dec v l) as [Hin|Hnin].
  - split; [intros _|auto].
    assert (Hnd' : NoDup (v :: remove_first v l))
      by (eapply Permutation_NoDup; [apply Permutation_sym, remove_first_perm, Hin | exact Hnd]).
    now inversion Hnd'.
  - split; [contradiction|]. intros H. exfalso. apply H, in_or_app. right. now left.
Qed.

Lemma remove_ok (v : json) (l : list json) :
  py_in v l = true -> exists l', remove v l = Ok l'.
Proof.
  unfold py_in. induction l as [|e t IH]; cbn; [discriminate|].
  destruct (py_eq e v); cbn.
  - intros _. now exists t.
  - intros H. destruct (IH H) as [l' ->]. cbn. now eexists.
Qed.

Lemma toggle_ok (v : json) (current : option (list json)) :
  exists l, toggle v current = Ok l.
Proof.
  unfold toggle. destruct (py_in v _) eqn:Hin.
  - now apply remove_ok.
  - now eexists.
Qed.

(** C2. For each of the three callbacks and each click that names a
    non-empty string [v]: on a selection without repetitions, the callback
    returns a selection in which the membership of [v] is flipped, and run
    again on that selection it returns one with the members it started
    from (the very list when [v] was not selected at first). *)
Theorem toggle_twice_restores (repr : json -> string) (src : source) (click_data : json)
    (v : string) (current : option (list string)) :
  resolves repr src click_data (JStr v) ->
  NoDup (values current) ->
  exists l1 l2,
    callback repr src click_data (option_map (map JStr) current) = Ok (Value (map JStr l1)) /\
    callback repr src click_data (Some (map JStr l1)) = Ok (Value (map JStr l2)) /\
    (In v (values current) <-> ~ In v l1) /\
    Permutation l2 (values current) /\
    (~ In v (values current) -> l2 = values current).
Proof.
  intros Hres Hnd.
  exists (spec_toggle v (values current)), (spec_toggle v (spec_toggle v (values current))).
  split; [|split; [|split]].
  - rewrite (callback_resolves repr src click_data (JStr v) _ Hres).
    now rewrite toggle_strings.
  - rewrite (callback_resolves repr src click_data (JStr v) _ Hres).
    change (Some (map JStr (spec_toggle v (values current))))
      with (option_map (map JStr) (Some (spec_toggle v (values current)))).
    now rewrite toggle_strings.
  - now apply spec_toggle_flips.
  - now apply spec_toggle_twice.
Qed.

(** X23. For each of the three callbacks and each click payload that is
    false ([None], an empty dict, ...) or a dict: the callback returns and
    does not raise; it returns [no_update] when the click does not resolve;
    and it returns a whole new selection when it does. *)
Theorem click_noop_on_dict (repr : json -> string) (src : source) (click_data : json)
    (current : option (list json)) :
  truthy click_data = false \/ (exists kvs, click_data = JObj kvs) ->
  (exists o, callback repr src click_data current = Ok o) /\
  (unresolvable repr src click_data ->
   callback repr src click_data current = Ok no_update) /\
  (forall v, resolves repr src click_data v ->
   exists l, toggle v current = Ok l /\
             callback repr src click_data current = Ok (Value l)).
Proof.
  intros Hshape.
  assert (Hres : forall v, resolves repr src click_data v ->
            exists l, toggle v current = Ok l /\
                      callback repr src click_data current = Ok (Value l)).
  { intros v Hv. rewrite (callback_resolves repr src click_data v current Hv).
    destruct (toggle_ok v current) as [l Hl]. exists l. now rewrite Hl. }
  assert (Hg : exists g, no_points click_data = Ok g).
  { unfold no_points. destruct Hshape as [Hf | [kvs ->]].
    - rewrite Hf. now eexists.
    - destruct (negb (truthy (JObj kvs))); cbn; now eexists. }
  destruct Hg as [g Hg].
  split; [|split; [|exact Hres]].
  - rewrite callback_eq, Hg. cbn [bind]. destruct g; [now eexists|].
    destruct (clicked_value repr src click_data) as [v|e]; cbn; [|now eexists].
    destruct (truthy v); cbn; [|now eexists].
    destruct (toggle v current); cbn; now eexists.
  - intros Hun. rewrite callback_eq, Hg. cbn [bind]. destruct g; [reflexivity|].
    destruct (clicked_value repr src click_data) as [v|e] eqn:Hv; cbn; [|reflexivity].
    destruct (truthy v) eqn:Ht; cbn; [|reflexivity].
    exfalso. apply (Hun v). repeat split; assumption.
Qed.

(** C9.  The claim fails on malformed payloads of two kinds.  A payload
    that is true but is not a dict, here a bare list of points: the guard
    calls [get] on it before the [try] block is entered, so each of the
    three callbacks raises [AttributeError] where the claim has it return
    [no_update].  And a dict whose clicked value is true but is not a
    string, here the number 5: the value is toggled into the selection. *)
Theorem click_malformed_payloads (repr : json -> string) (current : option (list json)) :
  (forall src,
     callback repr src (JArr [JObj [("location", JStr "USA")]]) current
     = Raise AttributeError) /\
  update_country_from_map
    (JObj [("points", JArr [JObj [("location", JNum 5)]])]) None
  = Ok (Value [JNum 5]).
Proof. split; [intros src; destruct src; reflexivity | reflexivity]. Qed.

(* ================================================================== *)
(** * The theorems at sample inputs *)

(** The specification's example: three rows, no filter. *)
Example sample_metrics :
  option_map (fun v => (total_emissions v, num_countries v, avg_emissions v, map_df v))
             (recompute sample_df initial_state)
  = Some (35000 # 1000, 2%nat, 17500 # 1000, [("China", 20 # 1); ("USA", 15 # 1)])%Q.
Proof. reflexivity. Qed.

(** The specification's example: a click on USA selects it, a second click
    clears the selection. *)
Example sample_toggle :
  update_country_from_map (sample_click "location" "USA") None
    = Ok (Value [JStr "USA"]) /\
  update_country_from_map (sample_click "location" "USA") (Some [JStr "USA"])
    = Ok (Value []).
Proof. split; reflexivity. Qed.

(** A treemap click names the first segment of the point's path. *)
Example sample_treemap :
  update_sector_from_treemap (fun _ => "") (sample_click "id" "Energy/Power") None
    = Ok (Value [JStr "Energy"]).
Proof. reflexivity. Qed.

(** The bound on the exact total, on the nine rows of doubles read exactly
    and filtered to one sector: the input on which the totals in double
    precision stand the other way round. *)
Lemma filtered_total_le_witness :
  (forall r, In r (map Doubles.exact_row Doubles.nine_rows) -> (0 <= Emissions r)%Q) /\
  exists v v0,
    recompute (map Doubles.exact_row Doubles.nine_rows)
      (mkState None None (Some ["Energy"]) None) = Some v /\
    recompute (map Doubles.exact_row Doubles.nine_rows) initial_state = Some v0 /\
    (sum (map Emissions (filtered (map Doubles.exact_row Doubles.nine_rows)
                           (mkState None None (Some ["Energy"]) None)))
     <= sum (map Emissions (map Doubles.exact_row Doubles.nine_rows)))%Q /\
    (total_emissions v <= total_emissions v0)%Q.
Proof.
  assert (H : forall r, In r (map Doubles.exact_row Doubles.nine_rows) ->
                (0 <= Emissions r)%Q).
  { intros r Hr. cbn [map Doubles.nine_rows In] in Hr.
    repeat (destruct Hr as [<-|Hr]; [vm_compute; discriminate|]). destruct Hr. }
  split; [exact H|].
  apply (filtered_total_le (map Doubles.exact_row Doubles.nine_rows)
           (mkState None None (Some ["Energy"]) None) H).
Defined.

(** The empty view, for a country the sample data frame does not have. *)
Lemma empty_subset_degrades_witness :
  filtered sample_df (mkState (Some ["Peru"]) None None None) = [] /\
  exists v,
    recompute sample_df (mkState (Some ["Peru"]) None None None) = Some v /\
    (total_emissions v == 0)%Q /\
    num_countries v = 0%nat /\
    avg_emissions v = 0%Q /\
    map_df v = [] /\
    top_countries v = [] /\
    table_records v = [] /\
    trend_rows (trend v) = 0%nat.
Proof.
  split; [reflexivity|].
  apply (empty_subset_degrades sample_df (mkState (Some ["Peru"]) None None None)).
  reflexivity.
Defined.

(** A reset fired while a country and a year are selected. *)
Lemma reset_absorbing_witness :
  triggered_id ["reset-button.n_clicks"] = Some "reset-button" /\
  exists v,
    update_dashboard sample_df ["reset-button.n_clicks"]
      (mkState (Some ["USA"]) (Some [2020%Z]) None None)
      = Some (v, mkState (Some []) (Some []) (Some []) (Some [])) /\
    recompute sample_df initial_state = Some v.
Proof.
  split; [reflexivity|].
  apply (reset_absorbing sample_df ["reset-button.n_clicks"]
           (mkState (Some ["USA"]) (Some [2020%Z]) None None)).
  reflexivity.
Defined.

(** A change of the country dropdown. *)
Lemma selections_returned_unchanged_witness :
  triggered_id ["country-dropdown.value"] <> Some "reset-button" /\
  exists v,
    update_dashboard sample_df ["country-dropdown.value"]
      (mkState (Some ["USA"]) None None None)
      = Some (v, mkState (Some ["USA"]) None None None) /\
    recompute sample_df (mkState (Some ["USA"]) None None None) = Some v.
Proof.
  assert (H : triggered_id ["country-dropdown.value"] <> Some "reset-button").
  { vm_compute. discriminate. }
  split; [exact H|].
  apply (selections_returned_unchanged sample_df ["country-dropdown.value"]
           (mkState (Some ["USA"]) None None None) H).
Defined.

(** Two map clicks on USA while China is selected. *)
Lemma toggle_twice_restores_witness :
  resolves (fun _ => "") Map (sample_click "location" "USA") (JStr "USA") /\
  NoDup (values (Some ["China"])) /\
  exists l1 l2,
    callback (fun _ => "") Map (sample_click "location" "USA")
      (option_map (map JStr) (Some ["China"])) = Ok (Value (map JStr l1)) /\
    callback (fun _ => "") Map (sample_click "location" "USA") (Some (map JStr l1))
      = Ok (Value (map JStr l2)) /\
    (In "USA" (values (Some ["China"])) <-> ~ In "USA" l1) /\
    Permutation l2 (values (Some ["China"])) /\
    (~ In "USA" (values (Some ["China"])) -> l2 = values (Some ["China"])).
Proof.
  assert (Hres : resolves (fun _ => "") Map (sample_click "location" "USA") (JStr "USA")).
  { repeat split; reflexivity. }
  assert (Hnd : NoDup (values (Some ["China"]))).
  { cbn. constructor; [intros [] | constructor]. }
  split; [exact Hres|]. split; [exact Hnd|].
  apply (toggle_twice_restores (fun _ => "") Map (sample_click "location" "USA")
           "USA" (Some ["China"]) Hres Hnd).
Defined.

(** A map click whose location is the empty string: it does not resolve
    and nothing changes. *)
Lemma click_noop_on_dict_witness :
  (truthy (sample_click "location" "") = false \/
   exists kvs, sample_click "location" "" = JObj kvs) /\
  unresolvable (fun _ => "") Map (sample_click "location" "") /\
  callback (fun _ => "") Map (sample_click "location" "") (Some [JStr "USA"])
    = Ok no_update.
Proof.
  assert (H : truthy (sample_click "location" "") = false \/
              exists kvs, sample_click "location" "" = JObj kvs).
  { right. eexists. reflexivity. }
  assert (Hun : unresolvable (fun _ => "") Map (sample_click "location" "")).
  { intros v (_ & Hv & Ht). cbn in Hv. inversion Hv; subst v. discriminate Ht. }
  split; [exact H|]. split; [exact Hun|].
  exact (proj1 (proj2 (click_noop_on_dict (fun _ => "") Map (sample_click "location" "")
                         (Some [JStr "USA"]) H)) Hun).
Defined.

(* ================================================================== *)
(** * More about the click callbacks *)

Import Loader Vocabulary.

(** ** What a returned selection looks like *)

Section CallbackResults.
Variable repr : json -> string.

(** A callback returns a selection only for a click that resolves, and the
    selection is the toggle of the clicked value. *)
Lemma callback_value_inv (src : source) (click_data : json) (current : option (list json))
    (l : list json) :
  callback repr src click_data current = Ok (Value l) ->
  exists v, resolves repr src click_data v /\ toggle v current = Ok l.
Proof.
  rewrite callback_eq. intros H.
  destruct (no_points click_data) as [[|]|e] eqn:Hg; cbn in H; try discriminate.
  destruct (clicked_value repr src click_data) as [v|e] eqn:Hv; cbn in H; try discriminate.
  destruct (truthy v) eqn:Ht; cbn in H; try discriminate.
  destruct (toggle v current) as [l'|e] eqn:Hl; cbn in H; try discriminate.
  exists v. split; [repeat split; assumption|]. congruence.
Qed.

End CallbackResults.

Lemma remove_incl (v : json) (l l' : list json) :
  remove v l = Ok l' -> incl l' l.
Proof.
  revert l'. induction l as [|e t IH]; intros l' H; cbn in H; [discriminate|].
  destruct (py_eq e v).
  - inversion H; subst. apply incl_tl, incl_refl.
  - destruct (remove v t) as [r|] eqn:Hr; cbn in H; [|discriminate].
    inversion H; subst. apply incl_cons; [now left|]. apply incl_tl. now apply IH.
Qed.

Lemma remove_length (v : json) (l l' : list json) :
  remove v l = Ok l' -> List.length l = S (List.length l').
Proof.
  revert l'. induction l as [|e t IH]; intros l' H; cbn in H; [discriminate|].
  destruct (py_eq e v).
  - inversion H; subst. reflexivity.
  - destruct (remove v t) as [r|] eqn:Hr; cbn in H; [|discriminate].
    inversion H; subst. cbn. f_equal. now apply IH.
Qed.

Lemma remove_distinct (v : json) (l l' : list json) :
  remove v l = Ok l' -> distinct l -> distinct l'.
Proof.
  revert l'. induction l as [|e t IH]; intros l' H Hd; cbn in H; [discriminate|].
  inversion Hd as [|a l0 Hall Hd']; subst.
  destruct (py_eq e v).
  - inversion H; subst. exact Hd'.
  - destruct (remove v t) as [r|] eqn:Hr; cbn in H; [|discriminate].
    inversion H; subst. constructor.
    + rewrite Forall_forall in *. intros x Hx. apply Hall. eapply remove_incl; eassumption.
    + now apply IH.
Qed.

Lemma append_distinct (v : json) (l : list json) :
  py_in v l = false -> distinct l -> distinct (l ++ [v]).
Proof.
  unfold py_in. induction l as [|e t IH]; cbn; intros Hin Hd.
  - repeat constructor.
  - apply orb_false_iff in Hin. destruct Hin as [Hev Hin].
    inversion Hd as [|a l0 Hall Hd']; subst. constructor.
    + apply Forall_app. split; [exact Hall | now constructor].
    + now apply IH.
Qed.

Lemma toggle_distinct (v : json) (current : option (list json)) (l : list json) :
  toggle v current = Ok l -> distinct (values current) -> distinct l.
Proof.
  unfold toggle.
  replace (match current with Some l0 => l0 | None => [] end) with (values current)
    by (destruct current; reflexivity).
  destruct (py_in v (values current)) eqn:Hin; intros H Hd.
  - eapply remove_distinct; eassumption.
  - inversion H; subst. now apply append_distinct.
Qed.

(** X1. Repetition-freedom is kept: from a selection in which no element
    equals a later one, whatever selection a callback returns has the same
    property, for every payload. *)
Theorem callback_keeps_distinct (repr : json -> string) (src : source) (click_data : json)
    (current : option (list json)) (l : list json) :
  distinct (values current) ->
  callback repr src click_data current = Ok (Value l) ->
  distinct l.
Proof.
  intros Hd H. apply callback_value_inv in H. destruct H as [v [_ Ht]].
  eapply toggle_distinct; eassumption.
Qed.

(** X2. A returned selection always differs from the current one: it is the
    current one with the clicked value appended, or it is one element
    shorter.  A callback never hands back a selection of the same length. *)
Theorem callback_changes_length (repr : json -> string) (src : source) (click_data : json)
    (current : option (list json)) (l : list json) :
  callback repr src click_data current = Ok (Value l) ->
  (exists v, resolves repr src click_data v /\ l = (values current ++ [v])%list) \/
  List.length (values current) = S (List.length l).
Proof.
  intros H. apply callback_value_inv in H. destruct H as [v [Hres Ht]].
  unfold toggle in Ht.
  replace (match current with Some l0 => l0 | None => [] end) with (values current) in Ht
    by (destruct current; reflexivity).
  destruct (py_in v (values current)).
  - right. exact (remove_length v _ _ Ht).
  - left. exists v. split; [exact Hres | congruence].
Qed.

(** ** Toggling with repeated values *)

Lemma remove_first_count (v : string) (l : list string) :
  count_occ string_dec (remove_first v l) v = Nat.pred (count_occ string_dec l v).
Proof.
  induction l as [|x t IH]; [reflexivity|].
  cbn [remove_first]. destruct (String.eqb_spec x v) as [->|Hne].
  - now rewrite count_occ_cons_eq.
  - rewrite !count_occ_cons_neq by assumption. exact IH.
Qed.

Lemma remove_first_others (v : string) (l : list string) :
  filter (fun x => negb (x =? v)) (remove_first v l) = filter (fun x => negb (x =? v)) l.
Proof.
  induction l as [|x t IH]; [reflexivity|].
  cbn [remove_first filter]. destruct (String.eqb_spec x v) as [->|Hne]; cbn.
  - reflexivity.
  - apply String.eqb_neq in Hne. rewrite Hne. cbn. now rewrite IH.
Qed.

Lemma remove_first_split (v : string) (l1 l2 : list string) :
  ~ In v l1 -> remove_first v (l1 ++ v :: l2) = (l1 ++ l2)%list.
Proof.
  induction l1 as [|x t IH]; intros Hnin; cbn.
  - now rewrite String.eqb_refl.
  - destruct (String.eqb_spec x v) as [->|Hne]; [exfalso; apply Hnin; now left|].
    f_equal. apply IH. intros H. apply Hnin. now right.
Qed.

(** X3. On any selection of strings, repeated values included, a click that
    names the string [v] appends [v] at the end when it is not selected and
    removes its first occurrence, and only that one, when it is.  So the
    number of occurrences of [v] goes down by one or up from none to one,
    and the other values keep their places relative to each other. *)
Theorem toggle_one_occurrence (repr : json -> string) (src : source) (click_data : json)
    (v : string) (current : option (list string)) :
  resolves repr src click_data (JStr v) ->
  exists l,
    callback repr src click_data (option_map (map JStr) current) = Ok (Value (map JStr l)) /\
    (~ In v (values current) -> l = (values current ++ [v])%list) /\
    (forall l1 l2,
       values current = (l1 ++ v :: l2)%list -> ~ In v l1 -> l = (l1 ++ l2)%list) /\
    count_occ string_dec l v
      = match count_occ string_dec (values current) v with
        | O => 1%nat
        | S n => n
        end /\
    filter (fun x => negb (x =? v)) l = filter (fun x => negb (x =? v)) (values current).
Proof.
  intros Hres. exists (spec_toggle v (values current)).
  split; [|split; [|split; [|split]]].
  - rewrite (callback_resolves repr src click_data (JStr v) _ Hres). now rewrite toggle_strings.
  - intros Hnin. unfold spec_toggle.
    destruct (in_dec string_dec v (values current)); [contradiction | reflexivity].
  - intros l1 l2 E Hnin. unfold spec_toggle.
    destruct (in_dec string_dec v (values current)) as [_|Hn].
    + rewrite E. now apply remove_first_split.
    + exfalso. apply Hn. rewrite E. apply in_or_app. right. now left.
  - unfold spec_toggle. destruct (in_dec string_dec v (values current)) as [Hin|Hnin].
    + rewrite remove_first_count.
      apply (count_occ_In string_dec) in Hin.
      destruct (count_occ string_dec (values current) v); [lia | reflexivity].
    + rewrite count_occ_app. cbn. destruct (string_dec v v) as [_|]; [|congruence].
      apply (count_occ_not_In string_dec) in Hnin. now rewrite Hnin.
  - unfold spec_toggle. destruct (in_dec string_dec v (values current)) as [Hin|Hnin].
    + apply remove_first_others.
    + rewrite filter_app. cbn. rewrite String.eqb_refl. cbn. apply app_nil_r.
Qed.

(** ** Splitting *)

Lemma split_nonempty (sep : ascii) (s : string) : split sep s <> [].
Proof.
  destruct s as [|c s']; cbn; [discriminate|].
  destruct (Ascii.eqb c sep); [discriminate|].
  destruct (split sep s'); discriminate.
Qed.

(** Joining the segments with the separator gives the string back. *)
Lemma split_concat (sep : ascii) (s : string) :
  String.concat (String sep EmptyString) (split sep s) = s.
Proof.
  induction s as [|c s' IH]; [reflexivity|].
  cbn [split]. destruct (Ascii.eqb_spec c sep) as [->|Hne].
  - pose proof (split_nonempty sep s') as Hn.
    destruct (split sep s') as [|w ws] eqn:E; [congruence|].
    cbn [String.concat]. cbn [String.concat] in IH. rewrite IH. reflexivity.
  - pose proof (split_nonempty sep s') as Hn.
    destruct (split sep s') as [|w ws] eqn:E; [congruence|].
    destruct ws as [|w' ws']; cbn in *; now rewrite IH.
Qed.

(** The first segment of a string that starts with [a] and goes on, if at
    all, with the separator, is [a], provided the separator is not in [a]. *)
Lemma split_first (sep : ascii) (a b : string) :
  free_of sep a ->
  (exists ws, split sep a = a :: ws) /\
  (exists ws, split sep (a ++ String sep b) = a :: ws).
Proof.
  unfold free_of. induction a as [|c a' IH]; intros Hfree.
  - split; cbn; [now eexists|]. rewrite Ascii.eqb_refl. now eexists.
  - cbn in Hfree.
    assert (Hc : c <> sep) by (intros ->; apply Hfree; now left).
    assert (Hfree' : ~ In sep (list_ascii_of_string a')) by (intros H; apply Hfree; now right).
    destruct (IH Hfree') as [[ws1 H1] [ws2 H2]].
    apply Ascii.eqb_neq in Hc.
    split; cbn; rewrite Hc.
    + rewrite H1. now eexists.
    + rewrite H2. now eexists.
Qed.

(** A string is its first segment, or its first segment, the separator and
    a rest. *)
Lemma split_head_cases (sep : ascii) (s h : string) (ws : list string) :
  split sep s = h :: ws ->
  s = h \/ exists rest, s = h ++ String sep rest.
Proof.
  intros H. pose proof (split_concat sep s) as Hc. rewrite H in Hc.
  cbn [String.concat] in Hc. destruct ws as [|w ws'].
  - now left.
  - right. eexists. symmetry. exact Hc.
Qed.

(** ** The treemap's order of fallback *)

Section TreemapFallback.
Variable repr : json -> string.
Variables (kvs fields : list (string * json)) (more : list json).
Hypothesis Hpoints : lookup "points" kvs = Some (JArr (JObj fields :: more)).

Lemma treemap_guard : no_points (JObj kvs) = Ok false.
Proof.
  unfold no_points, get. rewrite Hpoints.
  destruct kvs; [discriminate Hpoints | reflexivity].
Qed.

Lemma treemap_point :
  clicked_value repr Treemap (JObj kvs) = clicked_sector repr (JObj fields).
Proof.
  cbn [clicked_value]. unfold getitem. rewrite Hpoints. reflexivity.
Qed.

Lemma has_field_object (key : string) :
  has_field (JObj fields) key
  = Ok (match lookup key fields with Some v => truthy v | None => false end).
Proof.
  unfold has_field, contains, getitem. destruct (lookup key fields); reflexivity.
Qed.

Lemma has_field_unset (key : string) :
  unset key fields -> has_field (JObj fields) key = Ok false.
Proof.
  rewrite has_field_object. unfold unset.
  destruct (lookup key fields); [intros ->|]; reflexivity.
Qed.

Lemma treemap_toggles (v : json) (current : option (list json)) :
  clicked_sector repr (JObj fields) = Ok v ->
  truthy v = true ->
  exists l, toggle v current = Ok l /\
            update_sector_from_treemap repr (JObj kvs) current = Ok (Value l).
Proof.
  intros Hv Ht.
  assert (Hres : resolves repr Treemap (JObj kvs) v).
  { repeat split; [apply treemap_guard | now rewrite treemap_point | exact Ht]. }
  destruct (toggle_ok v current) as [l Hl]. exists l. split; [exact Hl|].
  change (update_sector_from_treemap repr) with (callback repr Treemap).
  rewrite (callback_resolves repr Treemap (JObj kvs) v current Hres), Hl. reflexivity.
Qed.

End TreemapFallback.

(** X4. A treemap click on a point whose [id] is a path toggles the first
    segment of the path, the sector, whatever the point's [label] and
    [text] say: [Energy/Power] toggles [Energy]. *)
Theorem treemap_id_names_sector (repr : json -> string) (kvs fields : list (string * json))
    (more : list json) (id sector : string) (current : option (list json)) :
  lookup "points" kvs = Some (JArr (JObj fields :: more)) ->
  lookup "id" fields = Some (JStr id) ->
  id = sector \/ (exists rest, id = sector ++ String "/" rest) ->
  free_of "/" sector ->
  sector <> "" ->
  exists l, toggle (JStr sector) current = Ok l /\
            update_sector_from_treemap repr (JObj kvs) current = Ok (Value l).
Proof.
  intros Hpoints Hid Hshape Hfree Hne.
  apply (treemap_toggles repr kvs fields more Hpoints).
  - unfold clicked_sector. rewrite has_field_object, Hid.
    assert (Hidne : id <> "").
    { destruct Hshape as [->|[rest ->]]; [exact Hne|].
      destruct sector; [congruence | discriminate]. }
    apply String.eqb_neq in Hidne. cbn [truthy bind]. rewrite Hidne. cbn [negb].
    unfold getitem. rewrite Hid. cbn [bind py_str].
    destruct (split_first "/" sector "" Hfree) as [[ws1 H1] _].
    destruct Hshape as [->|[rest ->]].
    + now rewrite H1.
    + destruct (split_first "/" sector rest Hfree) as [_ [ws2 H2]]. now rewrite H2.
  - cbn. apply String.eqb_neq in Hne. now rewrite Hne.
Qed.

(** X5. A treemap click on a point whose [id] starts with the separator has
    an empty first segment and changes nothing; the point's [label] and
    [text] are not consulted. *)
Theorem treemap_leading_slash_noop (repr : json -> string) (kvs fields : list (string * json))
    (more : list json) (rest : string) (current : option (list json)) :
  lookup "points" kvs = Some (JArr (JObj fields :: more)) ->
  lookup "id" fields = Some (JStr (String "/" rest)) ->
  update_sector_from_treemap repr (JObj kvs) current = Ok no_update.
Proof.
  intros Hpoints Hid.
  change (update_sector_from_treemap repr) with (callback repr Treemap).
  rewrite callback_eq, (treemap_guard kvs fields more Hpoints). cbn [bind].
  rewrite (treemap_point repr kvs fields more Hpoints).
  unfold clicked_sector. rewrite has_field_object, Hid. cbn [truthy bind String.eqb negb].
  unfold getitem. rewrite Hid. reflexivity.
Qed.

(** X6. Without a usable [id], a treemap click toggles the point's [label]
    when that is a true value; without a usable [label] either, it toggles
    the point's [text]. *)
Theorem treemap_label_then_text (repr : json -> string) (kvs fields : list (string * json))
    (more : list json) (v : json) (current : option (list json)) :
  lookup "points" kvs = Some (JArr (JObj fields :: more)) ->
  unset "id" fields ->
  truthy v = true ->
  lookup "label" fields = Some v \/
  (unset "label" fields /\ lookup "text" fields = Some v) ->
  exists l, toggle v current = Ok l /\
            update_sector_from_treemap repr (JObj kvs) current = Ok (Value l).
Proof.
  intros Hpoints Hid Ht Hfield.
  apply (treemap_toggles repr kvs fields more Hpoints); [|exact Ht].
  unfold clicked_sector. rewrite (has_field_unset fields "id" Hid). cbn [bind].
  destruct Hfield as [Hlabel | [Hlabel Htext]].
  - rewrite has_field_object, Hlabel, Ht. cbn [bind]. unfold getitem. now rewrite Hlabel.
  - rewrite (has_field_unset fields "label" Hlabel). cbn [bind].
    rewrite has_field_object, Htext, Ht. cbn [bind]. unfold getitem. now rewrite Htext.
Qed.

(* ================================================================== *)
(** * More about the view recomputer *)

Local Open Scope Q_scope.

(** ** Filters compose *)

Lemma dimension_wider {A} (eqb : A -> A -> bool) (x : A) (a b : option (list A)) :
  (forall u w, eqb u w = true <-> u = w) ->
  wider a b ->
  negb (chosen a) || isin eqb x (values a) = true ->
  negb (chosen b) || isin eqb x (values b) = true.
Proof.
  intros Heqb Hw. rewrite !(dimension_keeps eqb) by exact Heqb.
  intros Ha Hb. destruct Hw as [Hnil | [Hne Hincl]]; [congruence|].
  apply Hincl, Ha, Hne.
Qed.

Lemma spec_keeps_relaxes (st st' : filter_state) (r : record) :
  relaxes st st' -> spec_keeps st r = true -> spec_keeps st' r = true.
Proof.
  intros (Hc & Hy & Hs & Hss). unfold spec_keeps. rewrite !andb_true_iff.
  intros [[[H1 H2] H3] H4]. repeat split.
  - eapply dimension_wider; [apply String.eqb_eq | exact Hc | exact H1].
  - eapply dimension_wider; [apply Z.eqb_eq | exact Hy | exact H2].
  - eapply dimension_wider; [apply String.eqb_eq | exact Hs | exact H3].
  - eapply dimension_wider; [apply String.eqb_eq | exact Hss | exact H4].
Qed.

(** X7. Relaxing the filters only adds rows.  When every dimension of [st']
    is at least as permissive as in [st], the rows filtered under [st] are
    among those filtered under [st'], and filtering the latter under [st]
    gives the former, in the same order. *)
Theorem relaxing_adds_rows (df : dataset) (st st' : filter_state) :
  relaxes st st' ->
  incl (filtered df st) (filtered df st') /\
  filtered (filtered df st') st = filtered df st.
Proof.
  intros Hrel. split.
  - intros r. rewrite !filtered_filter, !filter_In. intros [Hin Hk].
    split; [exact Hin | now apply (spec_keeps_relaxes st st')].
  - rewrite !filtered_filter, filter_filter. apply filter_ext_in. intros r _.
    destruct (spec_keeps st r) eqn:Hk.
    + now rewrite (spec_keeps_relaxes st st' r Hrel Hk).
    + apply andb_false_r.
Qed.

(** X8. Filtering twice under the same state changes nothing more, and two
    states may be applied in either order. *)
Theorem filters_commute (df : dataset) (st st' : filter_state) :
  filtered (filtered df st) st = filtered df st /\
  filtered (filtered df st) st' = filtered (filtered df st') st.
Proof.
  rewrite !filtered_filter, !filter_filter. split; apply filter_ext; intros r.
  - apply andb_diag.
  - apply andb_comm.
Qed.

(** ** The loader's rows and the dropdown values *)

Lemma unique_in {A} (eqb : A -> A -> bool) (l : list A) (x : A) :
  (forall u w, eqb u w = true <-> u = w) ->
  In x (unique eqb l) <-> In x l.
Proof.
  intros Heqb. induction l as [|y t IH]; [reflexivity|].
  cbn [unique In]. rewrite filter_In, IH, negb_true_iff. split.
  - intros [H | [H _]]; auto.
  - intros [H | H]; [now left|].
    destruct (eqb x y) eqn:E; [left; symmetry; now apply Heqb | right; now split].
Qed.

Lemma unique_NoDup {A} (eqb : A -> A -> bool) (l : list A) :
  (forall u w, eqb u w = true <-> u = w) ->
  NoDup (unique eqb l).
Proof.
  intros Heqb. induction l as [|y t IH]; cbn [unique]; constructor.
  - rewrite filter_In, negb_true_iff. intros [_ H].
    assert (E : eqb y y = true) by now apply Heqb. congruence.
  - now apply NoDup_filter.
Qed.

Section Options.
Context {A : Type} (eqb le : A -> A -> bool) (column : record -> A).
Hypothesis eqb_eq : forall u w, eqb u w = true <-> u = w.
Hypothesis le_total : forall u w, le u w = true \/ le w u = true.

Lemma options_spec (df : dataset) :
  let options := sort le (unique eqb (map column df)) in
  NoDup options /\
  Sorted (fun u w => le u w = true) options /\
  forall x, In x options <-> exists r, In r df /\ column r = x.
Proof.
  cbn zeta. split; [|split].
  - eapply Permutation_NoDup; [apply Permutation_sym, sort_perm | now apply unique_NoDup].
  - now apply sort_sorted.
  - intros x. rewrite sort_in, (unique_in eqb _ _ eqb_eq), in_map_iff.
    split; intros [r [H1 H2]]; exists r; tauto.
Qed.

End Options.

Lemma Zleb_total (u w : Z) : (u <=? w)%Z = true \/ (w <=? u)%Z = true.
Proof. rewrite !Z.leb_le. lia. Qed.

Lemma string_options (column : record -> string) (df : dataset) (x : string) :
  In x (sort String.leb (unique String.eqb (map column df)))
  <-> exists r, In r df /\ column r = x.
Proof. apply (options_spec String.eqb String.leb column String.eqb_eq String.leb_total df). Qed.

Lemma years_in (df : dataset) (y : Z) :
  In y (years df) <-> exists r, In r df /\ Year r = y.
Proof. apply (options_spec Z.eqb Z.leb Year Z.eqb_eq Zleb_total df). Qed.

(** X9. Each dropdown offers exactly the values that occur in its column of
    the data frame, each once, in ascending order. *)
Theorem dropdown_options (df : dataset) :
  (NoDup (countries df) /\
   Sorted (fun u w => String.leb u w = true) (countries df) /\
   forall c, In c (countries df) <-> exists r, In r df /\ Country r = c) /\
  (NoDup (years df) /\
   Sorted (fun u w => (u <=? w)%Z = true) (years df) /\
   forall y, In y (years df) <-> exists r, In r df /\ Year r = y) /\
  (NoDup (sectors df) /\
   Sorted (fun u w => String.leb u w = true) (sectors df) /\
   forall s, In s (sectors df) <-> exists r, In r df /\ Sector r = s) /\
  (NoDup (subsectors df) /\
   Sorted (fun u w => String.leb u w = true) (subsectors df) /\
   forall s, In s (subsectors df) <-> exists r, In r df /\ Subsector r = s).
Proof.
  repeat apply conj.
  all: try apply (options_spec String.eqb String.leb _ String.eqb_eq String.leb_total df).
  all: apply (options_spec Z.eqb Z.leb _ Z.eqb_eq Zleb_total df).
Qed.

(** X10. Selecting every value a dropdown offers, in all four dropdowns,
    filters nothing out. *)
Theorem selecting_all_options (df : dataset) :
  filtered df (mkState (Some (countries df)) (Some (years df))
                       (Some (sectors df)) (Some (subsectors df)))
  = df.
Proof.
  rewrite filtered_filter. apply filter_all. intros r Hr.
  unfold spec_keeps. cbn [selected_countries selected_years selected_sectors selected_subsectors].
  rewrite !andb_true_iff.
  rewrite !(dimension_keeps String.eqb) by apply String.eqb_eq.
  rewrite (dimension_keeps Z.eqb) by apply Z.eqb_eq.
  cbn [values]. repeat split; intros _.
  - apply (string_options Country). now exists r.
  - apply years_in. now exists r.
  - apply (string_options Sector). now exists r.
  - apply (string_options Subsector). now exists r.
Qed.

(** X11. The year 2025 is gone after loading.  The loaded frame is the raw
    frame with its rows of 2025 taken out and nothing else touched: a row
    of 2025 loads as nothing, any other row as itself, and a frame made of
    two parts loads as the two parts loaded one after the other, so the
    kept rows stand in their order, as often as they occurred.  No view
    filtered from the loaded frame has a row of 2025, and the year dropdown
    does not offer it. *)
Theorem year_2025_excluded (raw : dataset) :
  (forall r, In r (exclude_2025 raw) <-> In r raw /\ Year r <> 2025%Z) /\
  (forall st r, In r (filtered (exclude_2025 raw) st) -> Year r <> 2025%Z) /\
  ~ In 2025%Z (years (exclude_2025 raw)) /\
  (Forall (fun r => Year r <> 2025%Z) raw -> exclude_2025 raw = raw) /\
  (forall r, Year r = 2025%Z -> exclude_2025 [r] = []) /\
  (forall r, Year r <> 2025%Z -> exclude_2025 [r] = [r]) /\
  (forall a b, raw = (a ++ b)%list ->
     exclude_2025 raw = (exclude_2025 a ++ exclude_2025 b)%list).
Proof.
  assert (H1 : forall r, In r (exclude_2025 raw) <-> In r raw /\ Year r <> 2025%Z).
  { intros r. unfold exclude_2025. rewrite filter_In, negb_true_iff, Z.eqb_neq. reflexivity. }
  split; [exact H1|]. split; [|split; [|split; [|split; [|split]]]].
  - intros st r Hr. apply filtered_in in Hr. now apply H1.
  - intros Hin.
    apply years_in in Hin. destruct Hin as [r [Hr Hyear]]. apply H1 in Hr. tauto.
  - intros Hall. apply filter_all. intros r Hr. rewrite Forall_forall in Hall.
    apply negb_true_iff, Z.eqb_neq. now apply Hall.
  - intros r Hr. unfold exclude_2025. cbn. rewrite Hr. reflexivity.
  - intros r Hr. unfold exclude_2025. cbn. apply Z.eqb_neq in Hr. now rewrite Hr.
  - intros a b ->. unfold exclude_2025. apply filter_app.
Qed.

(** ** Rounding, once more *)

Lemma rint_Qeq (x y : Q) : x == y -> rint x = rint y.
Proof.
  intros H. apply Z.le_antisymm; apply rint_mono; rewrite H; apply Qle_refl.
Qed.

Lemma rint_inject_Z (k : Z) : rint (inject_Z k) = k.
Proof.
  unfold rint, inject_Z. cbn [Qnum Qden].
  rewrite Z.div_1_r, Z.mod_1_r. reflexivity.
Qed.

Lemma round3_idem (x : Q) : round3 (round3 x) == round3 x.
Proof.
  unfold round3 at 1. 
  assert (E : round3 x * 1000 == inject_Z (rint (x * 1000))).
  { unfold round3. field. }
  rewrite (rint_Qeq _ _ E), rint_inject_Z. reflexivity.
Qed.

Lemma round3_nonneg (x : Q) : 0 <= x -> 0 <= round3 x.
Proof.
  intros H. apply (Qle_trans _ (round3 0)); [discriminate | now apply round3_mono].
Qed.

(** ** Sizes and signs of the metrics *)

(** X14. The number of countries is the number of rows of the per-country
    aggregate; it is at most the number of filtered rows and, under a
    non-empty country selection, at most the length of the selection. *)
Theorem country_count_bounds (df : dataset) (st : filter_state) :
  exists v,
    recompute df st = Some v /\
    num_countries v = List.length (map_df v) /\
    (num_countries v <= List.length (filtered df st))%nat /\
    (values (selected_countries st) <> [] ->
     (num_countries v <= List.length (values (selected_countries st)))%nat).
Proof.
  destruct (recompute_fields df st) as [v [Hv [_ [Hn [_ [Hm _]]]]]].
  exists v. split; [exact Hv|]. rewrite Hn, Hm. split; [|split].
  - now rewrite groupby_sum_length.
  - rewrite <- (length_map Country). apply NoDup_incl_length; [apply NoDup_nodup|].
    intros c. apply nodup_In.
  - intros Hne. apply NoDup_incl_length; [apply NoDup_nodup|].
    intros c Hc. apply nodup_In, in_map_iff in Hc. destruct Hc as [r [<- Hr]].
    apply (isin_In String.eqb); [apply String.eqb_eq|].
    now apply (filtered_countries df st r Hne).
Qed.

(** X15. With non-negative emissions in every row, the total shown is not
    negative and the average per country lies between 0 and the total. *)
Theorem average_within_total (df : dataset) (st : filter_state) :
  (forall r, In r df -> 0 <= Emissions r) ->
  exists v,
    recompute df st = Some v /\
    0 <= total_emissions v /\
    0 <= avg_emissions v /\
    avg_emissions v <= total_emissions v.
Proof.
  intros Hpos.
  destruct (recompute_fields df st) as [v [Hv [Ht [_ [Ha _]]]]].
  exists v. split; [exact Hv|].
  assert (Hsum : 0 <= sum (map Emissions (filtered df st))).
  { apply sum_nonneg, Forall_forall. intros q Hq. apply in_map_iff in Hq.
    destruct Hq as [r [<- Hr]]. apply Hpos. eapply filtered_in; eassumption. }
  assert (Htot : 0 <= total_emissions v).
  { rewrite Ht. now apply round3_nonneg. }
  split; [exact Htot|]. rewrite Ha.
  destruct (num_countries v) as [|n]; cbn [Nat.ltb Nat.leb].
  - split; [apply Qle_refl | exact Htot].
  - set (d := inject_Z (Z.of_nat (S n))).
    assert (Hd : 1 <= d).
    { unfold d. change 1 with (inject_Z 1). rewrite <- Zle_Qle. lia. }
    assert (Hd0 : 0 < d) by (apply (Qlt_le_trans 0 1 d); [reflexivity | exact Hd]).
    assert (Hq0 : 0 <= total_emissions v / d).
    { apply Qle_shift_div_l; [exact Hd0|]. now rewrite Qmult_0_l. }
    assert (Hq1 : total_emissions v / d <= total_emissions v).
    { apply Qle_shift_div_r; [exact Hd0|].
      rewrite <- (Qmult_1_r (total_emissions v)) at 1.
      apply Qmult_le_compat_nonneg; split; try assumption; try apply Qle_refl.
      discriminate. }
    split.
    + now apply round3_nonneg.
    + eapply Qle_trans; [apply round3_mono, Hq1|].
      rewrite Ht. rewrite round3_idem. apply Qle_refl.
Qed.

(** ** The bar chart's highlight and the table *)

Lemma recompute_bars (df : dataset) (st : filter_state) :
  exists v,
    recompute df st = Some v /\
    top_countries v = nlargest 10 (groupby_sum string_dec String.leb Country (filtered df st)) /\
    bar_colors v =
      match top_countries v with
      | [] => None
      | _ :: _ =>
          if chosen (selected_countries st)
          then Some (map (fun row => if isin String.eqb (fst row)
                                          (values (selected_countries st))
                                     then red else lightblue)
                         (top_countries v))
          else None
      end.
Proof.
  unfold recompute.
  destruct (List.length (nodup string_dec (map Country (filtered df st)))) as [|n];
    cbn [Nat.ltb Nat.leb divide option_map]; eexists; (split; [reflexivity|]);
    cbn [top_countries bar_colors]; split; reflexivity.
Qed.

Lemma map_const {A B} (f : A -> B) (c : B) (l : list A) :
  (forall x, In x l -> f x = c) -> map f l = repeat c (List.length l).
Proof.
  induction l as [|x l IH]; intros H; cbn; [reflexivity|].
  rewrite (H x) by now left. f_equal. apply IH. intros y Hy. apply H. now right.
Qed.

Lemma nlargest_in {K} (n : nat) (frame : list (K * Q)) (row : K * Q) :
  In row (nlargest n frame) -> In row frame.
Proof.
  unfold nlargest. intros H.
  apply (sort_in (fun a b => Qle_bool (snd b) (snd a))).
  rewrite <- (firstn_skipn n (sort _ frame)). apply in_or_app. now left.
Qed.

(** X16. The highlight never paints a bar light blue.  The bars are the
    countries of the filtered rows, and under a non-empty country selection
    those are all selected: whenever the callback colours the bars, it
    colours every one of them red. *)
Theorem bars_all_red (df : dataset) (st : filter_state) :
  exists v,
    recompute df st = Some v /\
    forall colors,
      bar_colors v = Some colors ->
      colors = repeat red (List.length (top_countries v)).
Proof.
  destruct (recompute_bars df st) as [v [Hv [Htop Hbar]]].
  exists v. split; [exact Hv|]. intros colors Hc. rewrite Hbar in Hc.
  destruct (chosen (selected_countries st)) eqn:Hch;
    [|destruct (top_countries v); discriminate].
  assert (E : colors
              = map (fun row => if isin String.eqb (fst row) (values (selected_countries st))
                                then red else lightblue)
                    (top_countries v)).
  { destruct (top_countries v); [discriminate | now inversion Hc]. }
  rewrite E. apply map_const. intros [c q] Hin. cbn [fst].
  assert (Hc' : In c (map Country (filtered df st))).
  { rewrite Htop in Hin. apply nlargest_in in Hin.
    apply groupby_sum_in in Hin. tauto. }
  apply in_map_iff in Hc'. destruct Hc' as [r [<- Hr]].
  apply chosen_true_iff in Hch.
  now rewrite (filtered_countries df st r Hch Hr).
Qed.

Lemma sort_values_desc_sorted (frame : dataset) :
  StronglySorted (fun a b => Emissions b <= Emissions a) (sort_values_desc frame).
Proof.
  apply Sorted_StronglySorted.
  - intros a b c Hab Hbc. eapply Qle_trans; eassumption.
  - apply (Sorted_impl (fun a b => Qle_bool (Emissions b) (Emissions a) = true)).
    + intros a b. apply Qle_bool_iff.
    + apply sort_sorted. intros a b. apply Qle_bool_total.
Qed.

Lemma StronglySorted_map {A B} (R : A -> A -> Prop) (R' : B -> B -> Prop) (f : A -> B)
    (l : list A) :
  (forall a b, R a b -> R' (f a) (f b)) ->
  StronglySorted R l -> StronglySorted R' (map f l).
Proof.
  intros HR. induction 1 as [|a l Hl IH Hall]; cbn; constructor; [assumption|].
  rewrite Forall_forall in *. intros y Hy. apply in_map_iff in Hy.
  destruct Hy as [x [<- Hx]]. now apply HR, Hall.
Qed.

(** X17. The table shows every filtered row once, its emissions rounded to
    three decimals and its other fields untouched, in descending order of
    the emissions shown. *)
Theorem table_sorted_rows (df : dataset) (st : filter_state) :
  exists v,
    recompute df st = Some v /\
    Permutation (table_records v) (map table_row (filtered df st)) /\
    StronglySorted (fun a b => Emissions b <= Emissions a) (table_records v).
Proof.
  destruct (recompute_fields df st) as [v [Hv [_ [_ [_ [_ [_ [_ Htab]]]]]]]].
  exists v. split; [exact Hv|]. rewrite Htab.
  change (fun r : record =>
            mkRecord (Country r) (Year r) (Sector r) (Subsector r) (round3 (Emissions r)))
    with table_row.
  split.
  - apply Permutation_map. unfold sort_values_desc. apply sort_perm.
  - apply (StronglySorted_map (fun a b => Emissions b <= Emissions a)).
    + intros a b Hab. cbn. now apply round3_mono.
    + apply sort_values_desc_sorted.
Qed.

(** ** The callback feeds itself *)

(** X18. The callback writes the dropdown values that are also its inputs.
    Run again on the values it wrote, for any trigger but the reset button,
    it writes the same values and returns the same view: one round settles
    the loop. *)
Theorem dashboard_settles (df : dataset) (triggered triggered' : list string)
    (st st' : filter_state) (v : view) :
  update_dashboard df triggered st = Some (v, st') ->
  is_reset triggered' = false ->
  update_dashboard df triggered' st' = Some (v, st').
Proof.
  unfold update_dashboard. intros H Hnot. rewrite Hnot.
  destruct (recompute df (if is_reset triggered
                          then mkState (Some []) (Some []) (Some []) (Some [])
                          else st)) as [v0|] eqn:Hv; cbn in H; [|discriminate].
  inversion H; subst. rewrite Hv. reflexivity.
Qed.

Lemma reset_button_free : free_of "." "reset-button".
Proof.
  unfold free_of. cbn. intros H.
  repeat (destruct H as [H|H]; [discriminate H|]). exact H.
Qed.

(** X19. The callback resets exactly when the first entry of the trigger
    list is the reset button: its [prop_id] is [reset-button] or starts
    with [reset-button.].  Later entries are not looked at. *)
Theorem reset_first_trigger (triggered : list string) :
  is_reset triggered = true <->
  exists prop_id rest,
    triggered = prop_id :: rest /\
    (prop_id = "reset-button" \/
     exists property, prop_id = "reset-button" ++ String "." property).
Proof.
  rewrite is_reset_iff. split.
  - destruct triggered as [|prop_id rest]; [discriminate|]. cbn [triggered_id].
    destruct (split "." prop_id) as [|first ws] eqn:Hs; [discriminate|].
    intros H. inversion H; subst first. exists prop_id, rest. split; [reflexivity|].
    exact (split_head_cases "." prop_id _ ws Hs).
  - intros (prop_id & rest & -> & Hshape). cbn [triggered_id].
    destruct (split_first "." "reset-button" "" reset_button_free) as [[ws H1] _].
    destruct Hshape as [->|[property ->]].
    + now rewrite H1.
    + destruct (split_first "." "reset-button" property reset_button_free) as [_ [ws2 H2]].
      now rewrite H2.
Qed.

(* ================================================================== *)
(** * The loader's columns *)

Lemma has_column_In (label : string) (columns : list string) :
  has_column label columns = true <-> In label columns.
Proof.
  unfold has_column. rewrite existsb_exists. split.
  - intros [c [Hc E]]. apply String.eqb_eq in E. now subst.
  - intros H. exists label. split; [exact H | apply String.eqb_refl].
Qed.

Lemma has_column_false (label : string) (columns : list string) :
  has_column label columns = false <-> ~ In label columns.
Proof.
  rewrite <- has_column_In. destruct (has_column label columns); split; congruence.
Qed.

Lemma drop_one (label : string) (columns : list string) :
  has_column label columns = true ->
  drop [label] columns = Ok (filter (fun c => negb (c =? label)) columns).
Proof.
  intros H. unfold drop. cbn [forallb]. rewrite H. cbn. f_equal.
  apply filter_ext. intros c. cbn. now rewrite orb_false_r.
Qed.

Lemma first_step (columns : list string) :
  (if has_column "Emissions" columns && has_column "Emissions in billions" columns
   then drop ["Emissions"] columns else Ok columns)
  = Ok (without_raw_emissions columns).
Proof.
  unfold without_raw_emissions.
  destruct (has_column "Emissions" columns) eqn:H1; cbn [andb]; [|reflexivity].
  destruct (has_column "Emissions in billions" columns); [|reflexivity].
  now apply drop_one.
Qed.

Lemma without_raw_emissions_in (columns : list string) (c : string) :
  c <> "Emissions" ->
  (In c (without_raw_emissions columns) <-> In c columns).
Proof.
  intros Hne. unfold without_raw_emissions.
  destruct (_ && _); [|reflexivity].
  rewrite filter_In, negb_true_iff, String.eqb_neq. tauto.
Qed.

(** X20. The clean-up of the columns fails in one case only: the sheet has a
    column [sector] and no column [subsector], and then it raises
    [KeyError].  In every other case it returns the cleaned columns. *)
Theorem prepare_columns_raises (columns : list string) :
  (In "sector" columns /\ ~ In "subsector" columns ->
   prepare_columns columns = Raise KeyError) /\
  (~ (In "sector" columns /\ ~ In "subsector" columns) ->
   exists cleaned, prepare_columns columns = Ok cleaned).
Proof.
  unfold prepare_columns. rewrite first_step. cbn [bind].
  set (c1 := without_raw_emissions columns).
  assert (Hs : In "sector" c1 <-> In "sector" columns)
    by (apply without_raw_emissions_in; discriminate).
  assert (Hss : In "subsector" c1 <-> In "subsector" columns)
    by (apply without_raw_emissions_in; discriminate).
  split.
  - intros [H1 H2]. apply Hs, has_column_In in H1.
    assert (H2' : has_column "subsector" c1 = false) by (apply has_column_false; tauto).
    rewrite H1. unfold drop. cbn [forallb]. rewrite H1, H2'. reflexivity.
  - intros Hok. destruct (has_column "sector" c1) eqn:H1.
    + assert (H2 : has_column "subsector" c1 = true).
      { destruct (has_column "subsector" c1) eqn:E; [reflexivity|]. exfalso. apply Hok.
        split; [apply Hs, has_column_In, H1 | intros H; apply Hss, has_column_In in H; congruence]. }
      unfold drop at 1. cbn [forallb]. rewrite H1, H2. cbn [andb bind].
      match goal with |- context [has_column "co2e_100yr_emissions_quantity" ?l] =>
        destruct (has_column "co2e_100yr_emissions_quantity" l) eqn:H3 end.
      * rewrite drop_one by exact H3. now eexists.
      * now eexists.
    + cbn [bind].
      match goal with |- context [has_column "co2e_100yr_emissions_quantity" ?l] =>
        destruct (has_column "co2e_100yr_emissions_quantity" l) eqn:H3 end.
      * rewrite drop_one by exact H3. now eexists.
      * now eexists.
Qed.

Lemma rename_canonical (columns : list string) :
  rename [("Sector (Capital)", "Sector");
          ("Subsector(Capital)", "Subsector");
          ("Emissions in billions", "Emissions")] columns
  = map canonical_name columns.
Proof.
  unfold rename, canonical_name. apply map_ext. intros c. cbn [find fst snd].
  destruct ("Sector (Capital)" =? c)%string; [reflexivity|].
  destruct ("Subsector(Capital)" =? c)%string; [reflexivity|].
  destruct ("Emissions in billions" =? c)%string; reflexivity.
Qed.

(** The cleaned columns in closed form. *)
Lemma prepare_columns_ok (columns cleaned : list string) :
  prepare_columns columns = Ok cleaned ->
  cleaned
  = filter (fun c => negb (c =? "co2e_100yr_emissions_quantity")%string)
      (map canonical_name (without_legacy_sector (without_raw_emissions columns))).
Proof.
  unfold prepare_columns. rewrite first_step. cbn [bind].
  set (c1 := without_raw_emissions columns). unfold without_legacy_sector.
  destruct (has_column "sector" c1) eqn:H1.
  - unfold drop at 1. cbn [forallb]. rewrite H1.
    destruct (has_column "subsector" c1); cbn [andb bind]; [|discriminate].
    rewrite rename_canonical.
    match goal with |- context [has_column "co2e_100yr_emissions_quantity" ?l] =>
      destruct (has_column "co2e_100yr_emissions_quantity" l) eqn:H3 end.
    + rewrite drop_one by exact H3. congruence.
    + intros H. inversion H; subst. symmetry. apply filter_all. intros c Hc.
      apply negb_true_iff, String.eqb_neq. intros ->.
      apply has_column_false in H3. contradiction.
  - cbn [bind]. rewrite rename_canonical.
    match goal with |- context [has_column "co2e_100yr_emissions_quantity" ?l] =>
      destruct (has_column "co2e_100yr_emissions_quantity" l) eqn:H3 end.
    + rewrite drop_one by exact H3. congruence.
    + intros H. inversion H; subst. symmetry. apply filter_all. intros c Hc.
      apply negb_true_iff, String.eqb_neq. intros ->.
      apply has_column_false in H3. contradiction.
Qed.

Lemma without_legacy_sector_in (columns : list string) (c : string) :
  In c (without_legacy_sector columns) <->
  In c columns /\ (In "sector" columns -> c <> "sector" /\ c <> "subsector").
Proof.
  unfold without_legacy_sector. destruct (has_column "sector" columns) eqn:H.
  - apply has_column_In in H. rewrite filter_In, negb_true_iff. unfold has_column.
    cbn [existsb]. rewrite orb_false_r, orb_false_iff, !String.eqb_neq. tauto.
  - apply has_column_false in H. tauto.
Qed.

(** Where a cleaned column comes from. *)
Lemma cleaned_in (columns cleaned : list string) (c : string) :
  prepare_columns columns = Ok cleaned ->
  (In c cleaned <->
   c <> "co2e_100yr_emissions_quantity" /\
   exists c0,
     canonical_name c0 = c /\
     In c0 columns /\
     (In "sector" columns -> c0 <> "sector" /\ c0 <> "subsector") /\
     (c0 = "Emissions" -> ~ In "Emissions in billions" columns)).
Proof.
  intros H. rewrite (prepare_columns_ok columns cleaned H).
  rewrite filter_In, negb_true_iff, String.eqb_neq, in_map_iff.
  assert (Hs : In "sector" (without_raw_emissions columns) <-> In "sector" columns)
    by (apply without_raw_emissions_in; discriminate).
  assert (Hraw : forall c0,
            In c0 (without_raw_emissions columns) <->
            In c0 columns /\ (c0 = "Emissions" -> ~ In "Emissions in billions" columns)).
  { intros c0. unfold without_raw_emissions.
    destruct (has_column "Emissions" columns) eqn:H1; cbn [andb].
    - destruct (has_column "Emissions in billions" columns) eqn:H2.
      + apply has_column_In in H2. rewrite filter_In, negb_true_iff, String.eqb_neq. tauto.
      + apply has_column_false in H2. tauto.
    - apply has_column_false in H1. split; [|tauto].
      intros Hin. split; [exact Hin|]. intros ->. contradiction. }
  split.
  - intros [[c0 [E Hin]] Hne]. split; [exact Hne|]. exists c0.
    apply without_legacy_sector_in in Hin. destruct Hin as [Hin Hsec].
    apply Hraw in Hin. rewrite Hs in Hsec. tauto.
  - intros [Hne [c0 (E & Hin & Hsec & Hem)]]. split; [|exact Hne]. exists c0.
    split; [exact E|]. apply without_legacy_sector_in. rewrite Hs, Hraw. tauto.
Qed.

Ltac in_list := cbn; repeat (first [left; reflexivity | right]).

Ltac name_cases c0 :=
  unfold canonical_name in *;
  destruct (String.eqb_spec "Sector (Capital)" c0);
  [|destruct (String.eqb_spec "Subsector(Capital)" c0);
    [|destruct (String.eqb_spec "Emissions in billions" c0)]];
  subst; try discriminate; try congruence.

(** X21. When the clean-up of the columns succeeds, no column keeps a legacy
    name; the sheet has one of the canonical columns exactly when it had
    that column under its canonical or its legacy name; and every column
    the clean-up does not name, such as [Country] and [Year], is kept. *)
Theorem prepare_columns_names (columns cleaned : list string) :
  prepare_columns columns = Ok cleaned ->
  (forall c,
     In c ["sector"; "Sector (Capital)"; "Subsector(Capital)"; "Emissions in billions";
           "co2e_100yr_emissions_quantity"] ->
     ~ In c cleaned) /\
  (In "Emissions" cleaned <-> In "Emissions" columns \/ In "Emissions in billions" columns) /\
  (In "Sector" cleaned <-> In "Sector" columns \/ In "Sector (Capital)" columns) /\
  (In "Subsector" cleaned <-> In "Subsector" columns \/ In "Subsector(Capital)" columns) /\
  (forall c,
     ~ In c ["sector"; "subsector"; "Sector"; "Subsector"; "Emissions";
             "Sector (Capital)"; "Subsector(Capital)"; "Emissions in billions";
             "co2e_100yr_emissions_quantity"] ->
     (In c cleaned <-> In c columns)).
Proof.
  intros H. pose proof (fun c => cleaned_in columns cleaned c H) as Hin.
  split; [|split; [|split; [|split]]].
  - intros c Hc Hcl. apply Hin in Hcl. destruct Hcl as [Hne [c0 (E & Hc0 & Hsec & Hem)]].
    cbn in Hc. destruct Hc as [<-|[<-|[<-|[<-|[<-|[]]]]]]; try congruence; name_cases c0.
    destruct (Hsec Hc0) as [Hx _]. congruence.
  - rewrite Hin. split.
    + intros [_ [c0 (E & Hc0 & _)]]. name_cases c0; [now right | now left].
    + intros Hor. split; [discriminate|].
      destruct (in_dec string_dec "Emissions in billions" columns) as [Hb|Hb].
      * exists "Emissions in billions". repeat split; try assumption; try discriminate; try (intros _; assumption).
      * destruct Hor as [He|He]; [|contradiction].
        exists "Emissions". repeat split; try assumption; try discriminate; try (intros _; assumption).
  - rewrite Hin. split.
    + intros [_ [c0 (E & Hc0 & _)]]. name_cases c0; [now right | now left].
    + intros [Hs|Hs]; (split; [discriminate|]).
      * exists "Sector". repeat split; try assumption; try discriminate; try (intros _; assumption).
      * exists "Sector (Capital)". repeat split; try assumption; try discriminate; try (intros _; assumption).
  - rewrite Hin. split.
    + intros [_ [c0 (E & Hc0 & _)]]. name_cases c0; [now right | now left].
    + intros [Hs|Hs]; (split; [discriminate|]).
      * exists "Subsector". repeat split; try assumption; try discriminate; try (intros _; assumption).
      * exists "Subsector(Capital)". repeat split; try assumption; try discriminate; try (intros _; assumption).
  - intros c Hc.
    assert (Hnot : forall x,
              In x ["sector"; "subsector"; "Sector"; "Subsector"; "Emissions";
                    "Sector (Capital)"; "Subsector(Capital)"; "Emissions in billions";
                    "co2e_100yr_emissions_quantity"] -> c <> x)
      by (intros x Hx ->; exact (Hc Hx)).
    clear Hc. rewrite Hin. split.
    + intros [_ [c0 (E & Hc0 & _)]].
      name_cases c0; try assumption; exfalso; (eapply Hnot; [|reflexivity]); in_list.
    + intros Hcin. split; [apply Hnot; in_list|].
      exists c. split; [|split; [exact Hcin|split]].
      * name_cases c; exfalso; (eapply Hnot; [|reflexivity]); in_list.
      * intros _. split; intros ->; (eapply Hnot; [|reflexivity]); in_list.
      * intros ->. exfalso. (eapply Hnot; [|reflexivity]); in_list.
Qed.

Lemma count_filter_le (p : string -> bool) (l : list string) (x : string) :
  (count_occ string_dec (filter p l) x <= count_occ string_dec l x)%nat.
Proof.
  induction l as [|y l IH]; cbn [filter]; [apply Nat.le_refl|].
  destruct (p y); cbn [count_occ]; destruct (string_dec y x); lia.
Qed.

Lemma count_canonical (l : list string) :
  count_occ string_dec (map canonical_name l) "Emissions"
  = (count_occ string_dec l "Emissions"
     + count_occ string_dec l "Emissions in billions")%nat.
Proof.
  induction l as [|c l IH]; [reflexivity|].
  cbn [map count_occ]. rewrite IH. unfold canonical_name.
  destruct (String.eqb_spec "Sector (Capital)" c) as [<-|H1]; [cbn; lia|].
  destruct (String.eqb_spec "Subsector(Capital)" c) as [<-|H2]; [cbn; lia|].
  destruct (String.eqb_spec "Emissions in billions" c) as [<-|H3]; [cbn; lia|].
  destruct (string_dec c "Emissions in billions") as [E|_]; [congruence|].
  destruct (string_dec c "Emissions"); lia.
Qed.

(** X22. The clean-up never leaves two columns named [Emissions]: from a
    sheet whose column names are all different, the cleaned columns hold
    [Emissions] at most once, also when the sheet had both [Emissions] and
    [Emissions in billions]. *)
Theorem emissions_column_unique (columns cleaned : list string) :
  NoDup columns ->
  prepare_columns columns = Ok cleaned ->
  (count_occ string_dec cleaned "Emissions" <= 1)%nat.
Proof.
  intros Hnd H. rewrite (prepare_columns_ok columns cleaned H).
  eapply Nat.le_trans; [apply count_filter_le|]. rewrite count_canonical.
  set (c1 := without_raw_emissions columns).
  assert (Hle : forall x, (count_occ string_dec (without_legacy_sector c1) x
                           <= count_occ string_dec c1 x)%nat).
  { intros x. unfold without_legacy_sector. destruct (has_column "sector" c1);
      [apply count_filter_le | apply Nat.le_refl]. }
  pose proof (proj1 (NoDup_count_occ string_dec columns) Hnd) as Hcount.
  assert (Hc1 : (count_occ string_dec c1 "Emissions"
                 + count_occ string_dec c1 "Emissions in billions" <= 1)%nat).
  { unfold c1, without_raw_emissions.
    destruct (has_column "Emissions" columns) eqn:H1; cbn [andb].
    - destruct (has_column "Emissions in billions" columns) eqn:H2.
      + assert (E : count_occ string_dec
                      (filter (fun c => negb (c =? "Emissions")%string) columns) "Emissions"
                    = 0%nat).
        { apply count_occ_not_In. rewrite filter_In, negb_true_iff, String.eqb_neq. tauto. }
        rewrite E. eapply Nat.le_trans; [apply count_filter_le | apply Hcount].
      + apply has_column_false, (count_occ_not_In string_dec) in H2.
        rewrite H2, Nat.add_0_r. apply Hcount.
    - apply has_column_false, (count_occ_not_In string_dec) in H1.
      rewrite H1. apply Hcount. }
  pose proof (Hle "Emissions"). pose proof (Hle "Emissions in billions"). lia.
Qed.

(* ================================================================== *)
(** * The further theorems at sample inputs *)

Lemma energy_free : free_of "/" "Energy".
Proof.
  unfold free_of. cbn. intros H.
  repeat (destruct H as [H|H]; [discriminate H|]). exact H.
Qed.

(** A map click on USA while China is selected. *)
Lemma callback_keeps_distinct_witness :
  distinct (values (Some [JStr "China"])) /\
  callback (fun _ => "") Map (sample_click "location" "USA") (Some [JStr "China"])
    = Ok (Value [JStr "China"; JStr "USA"]) /\
  distinct [JStr "China"; JStr "USA"].
Proof.
  assert (Hd : distinct (values (Some [JStr "China"]))).
  { cbn. repeat constructor. }
  assert (Hc : callback (fun _ => "") Map (sample_click "location" "USA")
                 (Some [JStr "China"]) = Ok (Value [JStr "China"; JStr "USA"]))
    by reflexivity.
  split; [exact Hd|]. split; [exact Hc|].
  exact (callback_keeps_distinct (fun _ => "") Map (sample_click "location" "USA")
           (Some [JStr "China"]) [JStr "China"; JStr "USA"] Hd Hc).
Defined.

(** A bar click on USA while USA and China are selected. *)
Lemma callback_changes_length_witness :
  callback (fun _ => "") Bar (sample_click "x" "USA") (Some [JStr "USA"; JStr "China"])
    = Ok (Value [JStr "China"]) /\
  ((exists v, resolves (fun _ => "") Bar (sample_click "x" "USA") v /\
              [JStr "China"] = (values (Some [JStr "USA"; JStr "China"]) ++ [v])%list) \/
   List.length (values (Some [JStr "USA"; JStr "China"])) = S (List.length [JStr "China"])).
Proof.
  assert (Hc : callback (fun _ => "") Bar (sample_click "x" "USA")
                 (Some [JStr "USA"; JStr "China"]) = Ok (Value [JStr "China"]))
    by reflexivity.
  split; [exact Hc|].
  exact (callback_changes_length (fun _ => "") Bar (sample_click "x" "USA")
           (Some [JStr "USA"; JStr "China"]) [JStr "China"] Hc).
Defined.

(** A map click on USA while USA is selected twice. *)
Lemma toggle_one_occurrence_witness :
  resolves (fun _ => "") Map (sample_click "location" "USA") (JStr "USA") /\
  exists l,
    callback (fun _ => "") Map (sample_click "location" "USA")
      (option_map (map JStr) (Some ["USA"; "China"; "USA"])) = Ok (Value (map JStr l)) /\
    (~ In "USA" (values (Some ["USA"; "China"; "USA"])) ->
     l = (values (Some ["USA"; "China"; "USA"]) ++ ["USA"])%list) /\
    (forall l1 l2,
       values (Some ["USA"; "China"; "USA"]) = (l1 ++ "USA" :: l2)%list ->
       ~ In "USA" l1 -> l = (l1 ++ l2)%list) /\
    count_occ string_dec l "USA"
      = match count_occ string_dec (values (Some ["USA"; "China"; "USA"])) "USA" with
        | O => 1%nat
        | S n => n
        end /\
    filter (fun x => negb (x =? "USA")) l
      = filter (fun x => negb (x =? "USA")) (values (Some ["USA"; "China"; "USA"])).
Proof.
  assert (Hres : resolves (fun _ => "") Map (sample_click "location" "USA") (JStr "USA")).
  { repeat split; reflexivity. }
  split; [exact Hres|].
  exact (toggle_one_occurrence (fun _ => "") Map (sample_click "location" "USA") "USA"
           (Some ["USA"; "China"; "USA"]) Hres).
Defined.

(** A treemap click on the tile Energy/Power, labelled Power. *)
Lemma treemap_id_names_sector_witness :
  lookup "points"
    [("points", JArr [JObj [("id", JStr "Energy/Power"); ("label", JStr "Power")]])]
    = Some (JArr [JObj [("id", JStr "Energy/Power"); ("label", JStr "Power")]]) /\
  lookup "id" [("id", JStr "Energy/Power"); ("label", JStr "Power")]
    = Some (JStr "Energy/Power") /\
  ("Energy/Power" = "Energy" \/ exists rest, "Energy/Power" = "Energy" ++ String "/" rest) /\
  free_of "/" "Energy" /\
  "Energy" <> "" /\
  exists l,
    toggle (JStr "Energy") None = Ok l /\
    update_sector_from_treemap (fun _ => "")
      (JObj [("points", JArr [JObj [("id", JStr "Energy/Power"); ("label", JStr "Power")]])])
      None = Ok (Value l).
Proof.
  assert (H3 : "Energy/Power" = "Energy" \/
               exists rest, "Energy/Power" = "Energy" ++ String "/" rest).
  { right. exists "Power". reflexivity. }
  assert (H5 : "Energy" <> "") by discriminate.
  split; [reflexivity|]. split; [reflexivity|]. split; [exact H3|].
  split; [exact energy_free|]. split; [exact H5|].
  exact (treemap_id_names_sector (fun _ => "")
           [("points", JArr [JObj [("id", JStr "Energy/Power"); ("label", JStr "Power")]])]
           [("id", JStr "Energy/Power"); ("label", JStr "Power")]
           [] "Energy/Power" "Energy" None eq_refl eq_refl H3 energy_free H5).
Defined.

(** A treemap click on a tile whose path starts with the separator. *)
Lemma treemap_leading_slash_noop_witness :
  lookup "points"
    [("points", JArr [JObj [("id", JStr "/Power"); ("label", JStr "Power")]])]
    = Some (JArr [JObj [("id", JStr "/Power"); ("label", JStr "Power")]]) /\
  lookup "id" [("id", JStr "/Power"); ("label", JStr "Power")] = Some (JStr (String "/" "Power")) /\
  update_sector_from_treemap (fun _ => "")
    (JObj [("points", JArr [JObj [("id", JStr "/Power"); ("label", JStr "Power")]])])
    (Some [JStr "Energy"]) = Ok no_update.
Proof.
  split; [reflexivity|]. split; [reflexivity|].
  exact (treemap_leading_slash_noop (fun _ => "")
           [("points", JArr [JObj [("id", JStr "/Power"); ("label", JStr "Power")]])]
           [("id", JStr "/Power"); ("label", JStr "Power")]
           [] "Power" (Some [JStr "Energy"]) eq_refl eq_refl).
Defined.

(** A treemap click on a tile with an empty label and a text. *)
Lemma treemap_label_then_text_witness :
  lookup "points"
    [("points", JArr [JObj [("label", JStr ""); ("text", JStr "Waste")]])]
    = Some (JArr [JObj [("label", JStr ""); ("text", JStr "Waste")]]) /\
  unset "id" [("label", JStr ""); ("text", JStr "Waste")] /\
  truthy (JStr "Waste") = true /\
  (lookup "label" [("label", JStr ""); ("text", JStr "Waste")] = Some (JStr "Waste") \/
   (unset "label" [("label", JStr ""); ("text", JStr "Waste")] /\
    lookup "text" [("label", JStr ""); ("text", JStr "Waste")] = Some (JStr "Waste"))) /\
  exists l,
    toggle (JStr "Waste") None = Ok l /\
    update_sector_from_treemap (fun _ => "")
      (JObj [("points", JArr [JObj [("label", JStr ""); ("text", JStr "Waste")]])]) None
      = Ok (Value l).
Proof.
  assert (H2 : unset "id" [("label", JStr ""); ("text", JStr "Waste")]) by exact I.
  assert (H4 : lookup "label" [("label", JStr ""); ("text", JStr "Waste")]
               = Some (JStr "Waste") \/
               (unset "label" [("label", JStr ""); ("text", JStr "Waste")] /\
                lookup "text" [("label", JStr ""); ("text", JStr "Waste")]
                = Some (JStr "Waste"))).
  { right. split; reflexivity. }
  split; [reflexivity|]. split; [exact H2|]. split; [reflexivity|]. split; [exact H4|].
  exact (treemap_label_then_text (fun _ => "")
           [("points", JArr [JObj [("label", JStr ""); ("text", JStr "Waste")]])]
           [("label", JStr ""); ("text", JStr "Waste")]
           [] (JStr "Waste") None eq_refl H2 eq_refl H4).
Defined.

(** Dropping the year filter from a country-and-year selection. *)
Lemma relaxing_adds_rows_witness :
  relaxes (mkState (Some ["USA"]) (Some [2020%Z]) None None)
          (mkState (Some ["USA"; "China"]) None None None) /\
  incl (filtered sample_df (mkState (Some ["USA"]) (Some [2020%Z]) None None))
       (filtered sample_df (mkState (Some ["USA"; "China"]) None None None)) /\
  filtered (filtered sample_df (mkState (Some ["USA"; "China"]) None None None))
           (mkState (Some ["USA"]) (Some [2020%Z]) None None)
  = filtered sample_df (mkState (Some ["USA"]) (Some [2020%Z]) None None).
Proof.
  assert (H : relaxes (mkState (Some ["USA"]) (Some [2020%Z]) None None)
                      (mkState (Some ["USA"; "China"]) None None None)).
  { repeat split; try (left; reflexivity).
    right. split; [discriminate|]. intros c [<-|[]]. now left. }
  split; [exact H|].
  exact (relaxing_adds_rows sample_df _ _ H).
Defined.

(** The sample data frame, filtered to one country. *)
Lemma average_within_total_witness :
  (forall r, In r sample_df -> 0 <= Emissions r) /\
  exists v,
    recompute sample_df (mkState (Some ["USA"]) None None None) = Some v /\
    0 <= total_emissions v /\
    0 <= avg_emissions v /\
    avg_emissions v <= total_emissions v.
Proof.
  assert (H : forall r, In r sample_df -> 0 <= Emissions r).
  { intros r [<-|[<-|[<-|[]]]]; unfold Qle; cbn; lia. }
  split; [exact H|].
  exact (average_within_total sample_df (mkState (Some ["USA"]) None None None) H).
Defined.

(** A reset followed by the round it causes. *)
Lemma dashboard_settles_witness :
  exists v st',
    update_dashboard sample_df ["reset-button.n_clicks"]
      (mkState (Some ["USA"]) None None None) = Some (v, st') /\
    is_reset ["country-dropdown.value"] = false /\
    update_dashboard sample_df ["country-dropdown.value"] st' = Some (v, st').
Proof.
  destruct (update_dashboard sample_df ["reset-button.n_clicks"]
              (mkState (Some ["USA"]) None None None)) as [[v st']|] eqn:E;
    [|discriminate E].
  exists v, st'. split; [reflexivity|]. split; [reflexivity|].
  exact (dashboard_settles sample_df ["reset-button.n_clicks"] ["country-dropdown.value"]
           (mkState (Some ["USA"]) None None None) st' v E eq_refl).
Defined.

(** A sheet with both emissions columns and the legacy sector columns. *)
Lemma prepare_columns_names_witness :
  prepare_columns ["Country"; "Year"; "sector"; "subsector"; "Sector (Capital)";
                   "Subsector(Capital)"; "Emissions"; "Emissions in billions"]
    = Ok ["Country"; "Year"; "Sector"; "Subsector"; "Emissions"] /\
  In "Emissions" ["Country"; "Year"; "Sector"; "Subsector"; "Emissions"].
Proof.
  assert (H : prepare_columns ["Country"; "Year"; "sector"; "subsector"; "Sector (Capital)";
                               "Subsector(Capital)"; "Emissions"; "Emissions in billions"]
              = Ok ["Country"; "Year"; "Sector"; "Subsector"; "Emissions"]) by reflexivity.
  split; [exact H|].
  apply (proj1 (proj2 (prepare_columns_names _ _ H))). right. in_list.
Defined.

(** A sheet with both emissions columns. *)
Lemma emissions_column_unique_witness :
  NoDup ["Country"; "Emissions"; "Emissions in billions"] /\
  prepare_columns ["Country"; "Emissions"; "Emissions in billions"]
    = Ok ["Country"; "Emissions"] /\
  (count_occ string_dec ["Country"; "Emissions"] "Emissions" <= 1)%nat.
Proof.
  assert (Hnd : NoDup ["Country"; "Emissions"; "Emissions in billions"]).
  { repeat constructor; cbn; intuition discriminate. }
  assert (H : prepare_columns ["Country"; "Emissions"; "Emissions in billions"]
              = Ok ["Country"; "Emissions"]) by reflexivity.
  split; [exact Hnd|]. split; [exact H|].
  exact (emissions_column_unique _ _ Hnd H).
Defined.
